(** * Crowd-state feed of the 3D simulation view

    A shallow embedding of [src/components/3DSimulation.tsx]: the satellite
    ground compositor ([lonLatToTile], [fetchTile], [load]), the scene
    ([Scene3D], [HeatZone], [CrowdParticle]) and the real-time state of
    [Simulation3D] ([bootstrapDefaults], the WebSocket handlers and the
    fallback interval); and of the handlers of
    [src/components/SimulationControl.tsx] ([SimulationControl] and the
    fallback reply of [AIAssistant]).

    JavaScript numbers are idealised: scene coordinates and intensities are
    rationals ([Q]), tile arithmetic is done on integers ([Z]) and the
    Web-Mercator formula on reals ([R]).  [Math.random] is an explicit
    sequence of draws threaded through the code that consumes it. *)

From Stdlib Require Import ZArith QArith Qminmax Qabs Lqa List String Bool Lia.
From Stdlib Require Import DecimalString Qround Ascii.
From Stdlib Require Import Reals Zfloor Lra.
Import ListNotations.

Set Warnings "-register-all".
Local Open Scope string_scope.
Local Open Scope Q_scope.

(* ------------------------------------------------------------------ *)
(** ** Data model *)

Inductive RiskLevel := low | medium | high | critical.

Definition vec3 : Type := Q * Q * Q.

(** [LocationData], [HeatZoneData] and [ParticleData] as exported by the
    source.  The two [position] fields are told apart by a prefix. *)
Record LocationData := {
  l_position : vec3;
  label : string;
  riskLevel : RiskLevel
}.

Record HeatZoneData := {
  center : vec3;
  radius : Q;
  intensity : Q
}.

Record ParticleData := {
  position : vec3;
  color : string;
  speed : Q
}.

(** A value produced by [JSON.parse]: the [any] the message handler
    works on. *)
Inductive value :=
| VNull
| VBool (b : bool)
| VNum (q : Q)
| VStr (s : string)
| VArr (items : list value)
| VObj (props : list (string * value)).

(** JavaScript truthiness of a parsed value: [null], [false], [0] and the
    empty string are falsy, every array and object is truthy. *)
Definition truthy (v : value) : bool :=
  match v with
  | VNull => false
  | VBool b => b
  | VNum q => negb (Qeq_bool q 0)
  | VStr s => negb (String.eqb s "")
  | VArr _ => true
  | VObj _ => true
  end.

(** Own-property lookup in a parsed object (first binding of the key). *)
Fixpoint lookup (k : string) (props : list (string * value)) : option value :=
  match props with
  | [] => None
  | (k', v) :: rest => if String.eqb k k' then Some v else lookup k rest
  end.

(** The object without its property [k]. *)
Definition remove_key (k : string) (props : list (string * value))
  : list (string * value) :=
  filter (fun kv => negb (String.eqb k (fst kv))) props.

Inductive js_error := SyntaxError | TypeError.

(** How a statement or call completes. *)
Inductive completion (A : Type) :=
| Normal (a : A)
| Throw (e : js_error).
Arguments Normal {A} a.
Arguments Throw {A} e.

(** [data.k] for one of the keys the handler reads: reading a property of
    [null] throws, an object yields the property or [undefined] ([None]),
    and primitives and arrays have no property of these names. *)
Definition get_prop (data : value) (k : string) : completion (option value) :=
  match data with
  | VNull => Throw TypeError
  | VObj props => Normal (lookup k props)
  | _ => Normal None
  end.

(** The member [k] of a parsed update: [None] when it is omitted, which
    is also the case of every member of a value that is not an object. *)
Definition field (data : value) (k : string) : option value :=
  match data with
  | VObj props => lookup k props
  | _ => None
  end.

(** The content of one [useState] cell of [Simulation3D].  The declared
    type is [T[] | undefined]; the message handler stores a parsed value in
    it without any check, which [Inbound] records. *)
Inductive cell (A : Type) :=
| Own (o : option (list A))
| Inbound (v : value).
Arguments Own {A} o.
Arguments Inbound {A} v.

(** What [if (p) set(p)] leaves in a cell that held [old]. *)
Definition reconcile {A} (old : cell A) (p : option value) : cell A :=
  match p with
  | Some v => if truthy v then Inbound v else old
  | None => old
  end.

(** A cell that reads as [undefined] or [null]. *)
Definition nullish {A} (x : cell A) : bool :=
  match x with
  | Own None => true
  | Inbound VNull => true
  | _ => false
  end.

(** The socket held in [ws]; [close_called] records [ws.close()]. *)
Record WebSocket := {
  ws_url : string;
  close_called : bool
}.

(** The state of a mounted [Simulation3D]: its four state cells, the two
    locals of the effect ([ws], [timer]) and the console, on which the
    component never writes. *)
Record Simulation3D := {
  locations : cell LocationData;
  heatZones : cell HeatZoneData;
  crowdParticles : cell ParticleData;
  isLive : bool;
  ws : option WebSocket;
  timer : bool;
  console : list string
}.

Definition setLocations (x : cell LocationData) (c : Simulation3D) :=
  {| locations := x; heatZones := heatZones c;
     crowdParticles := crowdParticles c; isLive := isLive c;
     ws := ws c; timer := timer c; console := console c |}.

Definition setHeatZones (x : cell HeatZoneData) (c : Simulation3D) :=
  {| locations := locations c; heatZones := x;
     crowdParticles := crowdParticles c; isLive := isLive c;
     ws := ws c; timer := timer c; console := console c |}.

Definition setCrowdParticles (x : cell ParticleData) (c : Simulation3D) :=
  {| locations := locations c; heatZones := heatZones c;
     crowdParticles := x; isLive := isLive c;
     ws := ws c; timer := timer c; console := console c |}.

Definition setIsLive (b : bool) (c : Simulation3D) :=
  {| locations := locations c; heatZones := heatZones c;
     crowdParticles := crowdParticles c; isLive := b;
     ws := ws c; timer := timer c; console := console c |}.

Definition set_ws (w : option WebSocket) (c : Simulation3D) :=
  {| locations := locations c; heatZones := heatZones c;
     crowdParticles := crowdParticles c; isLive := isLive c;
     ws := w; timer := timer c; console := console c |}.

Definition set_timer (t : bool) (c : Simulation3D) :=
  {| locations := locations c; heatZones := heatZones c;
     crowdParticles := crowdParticles c; isLive := isLive c;
     ws := ws c; timer := t; console := console c |}.

(** The badge shown for [isLive]. *)
Definition status (c : Simulation3D) : string :=
  if isLive c then "Real-time" else "Simulated".

(* ------------------------------------------------------------------ *)
(** ** Random draws *)

(** [Math.random]: [draws g n] is the n-th number it returns, [cursor g]
    how many have been consumed. *)
Record Rng := {
  draws : nat -> Q;
  cursor : nat
}.

Definition Rand (A : Type) : Type := Rng -> A * Rng.

Definition ret {A} (a : A) : Rand A := fun g => (a, g).

Definition bind {A B} (m : Rand A) (k : A -> Rand B) : Rand B :=
  fun g => let (a, g') := m g in k a g'.

Notation "x <- m ;; k" := (bind m (fun x => k))
  (at level 61, m at next level, right associativity).

Definition Math_random : Rand Q :=
  fun g => (draws g (cursor g), {| draws := draws g; cursor := S (cursor g) |}).

(** [xs.map(f)] for an [f] that draws random numbers, in index order. *)
Fixpoint mapM {A B} (f : A -> Rand B) (xs : list A) : Rand (list B) :=
  match xs with
  | [] => ret []
  | x :: rest => y <- f x ;; ys <- mapM f rest ;; ret (y :: ys)
  end.

(** [Array.from({ length: n }).map(() => f())]. *)
Fixpoint array_from {A} (n : nat) (f : Rand A) : Rand (list A) :=
  match n with
  | O => ret []
  | S n' => y <- f ;; ys <- array_from n' f ;; ret (y :: ys)
  end.

(** Every draw lies in [0, 1), as [Math.random] promises. *)
Definition unit_interval (g : Rng) : Prop :=
  forall n, 0 <= draws g n /\ draws g n < 1.

(* ------------------------------------------------------------------ *)
(** ** Seeding: [bootstrapDefaults] *)

Definition Qltb (a b : Q) : bool :=
  match a ?= b with Lt => true | _ => false end.

Definition seedLocations : list LocationData :=
  [ {| l_position := (-1, 0, -1); label := "Ramkund"; riskLevel := high |};
    {| l_position := (1, 0, -1); label := "Triveni"; riskLevel := critical |};
    {| l_position := (0, 0, 1); label := "Kalaram"; riskLevel := medium |};
    {| l_position := (-1.5, 0, 0.5); label := "Sita Gufha"; riskLevel := low |} ].

Definition seedHeat : list HeatZoneData :=
  [ {| center := (-1, 0, -1); radius := 0.3; intensity := 0.8 |};
    {| center := (1, 0, -1); radius := 0.4; intensity := 0.95 |};
    {| center := (0, 0, 1); radius := 0.25; intensity := 0.6 |};
    {| center := (-1.5, 0, 0.5); radius := 0.2; intensity := 0.3 |} ].

Definition high_density : string := "#ef4444".
Definition low_density : string := "#10b981".

(** The body of the arrow function mapped over the 200 slots. *)
Definition seedParticle : Rand ParticleData :=
  r1 <- Math_random ;;
  let x := (r1 - 0.5) * 4 in
  r2 <- Math_random ;;
  let z := (r2 - 0.5) * 4 in
  let y := 0.02 in
  let intensity := if Qltb (Qabs x + Qabs z) 1.5 then 0.8 else 0.3 in
  let color := if Qltb 0.6 intensity then high_density else low_density in
  r3 <- Math_random ;;
  ret {| position := (x, y, z); color := color; speed := r3 * 2 + 1 |}.

Definition seedParticles : Rand (list ParticleData) :=
  array_from 200 seedParticle.

Definition bootstrapDefaults (c : Simulation3D) : Rand Simulation3D :=
  ps <- seedParticles ;;
  ret (setCrowdParticles (Own (Some ps))
        (setHeatZones (Own (Some seedHeat))
          (setLocations (Own (Some seedLocations)) c))).

(* ------------------------------------------------------------------ *)
(** ** The fallback interval *)

(** [prev ?? []]. *)
Definition or_empty {A} (prev : option (list A)) : list A :=
  match prev with Some l => l | None => [] end.

(** [arr.length ? arr : prev]. *)
Definition arr_or_prev {A} (arr : list A) (prev : option (list A))
  : option (list A) :=
  match arr with [] => prev | _ :: _ => Some arr end.

Definition perturbZone (z : HeatZoneData) : Rand HeatZoneData :=
  r <- Math_random ;;
  ret {| center := center z; radius := radius z;
         intensity := Qmax 0.05 (Qmin 1 (intensity z + (r - 0.5) * 0.1)) |}.

(** The updater passed to [setHeatZones] by the interval callback. *)
Definition tickHeatZones (prev : option (list HeatZoneData))
  : Rand (option (list HeatZoneData)) :=
  arr <- mapM perturbZone (or_empty prev) ;;
  ret (arr_or_prev arr prev).

Definition perturbParticle (p : ParticleData) : Rand ParticleData :=
  let '(x, y, z) := position p in
  r1 <- Math_random ;;
  let nx := Qmax (-2) (Qmin 2 (x + (r1 - 0.5) * 0.02)) in
  r2 <- Math_random ;;
  let nz := Qmax (-2) (Qmin 2 (z + (r2 - 0.5) * 0.02)) in
  ret {| position := (nx, y, nz); color := color p; speed := speed p |}.

(** The updater passed to [setCrowdParticles] by the interval callback. *)
Definition tickCrowdParticles (prev : option (list ParticleData))
  : Rand (option (list ParticleData)) :=
  arr <- mapM perturbParticle (or_empty prev) ;;
  ret (arr_or_prev arr prev).

(** One firing of the interval on the two arrays it mutates. *)
Definition tick (s : option (list HeatZoneData) * option (list ParticleData))
  : Rand (option (list HeatZoneData) * option (list ParticleData)) :=
  hz <- tickHeatZones (fst s) ;;
  ps <- tickCrowdParticles (snd s) ;;
  ret (hz, ps).

Fixpoint ticks (n : nat)
  (s : option (list HeatZoneData) * option (list ParticleData))
  : Rand (option (list HeatZoneData) * option (list ParticleData)) :=
  match n with
  | O => ret s
  | S n' => s' <- tick s ;; ticks n' s'
  end.

(** The interval callback on the component.  The updaters are typed on
    [T[] | undefined]; on a cell holding an unchecked inbound value the
    model gives no result ([None]). *)
Definition interval_callback (c : Simulation3D) : Rand (option Simulation3D) :=
  match heatZones c, crowdParticles c with
  | Own hz, Own ps =>
      hz' <- tickHeatZones hz ;;
      ps' <- tickCrowdParticles ps ;;
      ret (Some (setCrowdParticles (Own ps') (setHeatZones (Own hz') c)))
  | _, _ => ret None
  end.

(* ------------------------------------------------------------------ *)
(** ** The WebSocket handlers *)

(** Code that reads and writes the component and may throw; the state
    reached at the throw is kept. *)
Definition Handler (A : Type) : Type :=
  Simulation3D -> completion A * Simulation3D.

Definition hret {A} (a : A) : Handler A := fun c => (Normal a, c).

Definition hbind {A B} (m : Handler A) (k : A -> Handler B) : Handler B :=
  fun c =>
    match m c with
    | (Normal a, c') => k a c'
    | (Throw e, c') => (Throw e, c')
    end.

Definition lift {A} (r : completion A) : Handler A := fun c => (r, c).

Definition modify (f : Simulation3D -> Simulation3D) : Handler unit :=
  fun c => (Normal tt, f c).

(** [try { body } catch { }] with an empty catch block. *)
Definition try_catch_ignore (body : Handler unit) : Handler unit :=
  fun c =>
    match body c with
    | (Normal a, c') => (Normal a, c')
    | (Throw _, c') => (Normal tt, c')
    end.

Notation "x <-- m ;; k" := (hbind m (fun x => k))
  (at level 61, m at next level, right associativity).

(** [if (p) set(p)] for a property value [p]. *)
Definition if_truthy (p : option value) (set : value -> Simulation3D -> Simulation3D)
  : Handler unit :=
  match p with
  | Some v => if truthy v then modify (set v) else hret tt
  | None => hret tt
  end.

(** The body of the [try] in [ws.onmessage]; [parsed] is how
    [JSON.parse(evt.data)] completed. *)
Definition ws_onmessage_try (parsed : completion value) : Handler unit :=
  data <-- lift parsed ;;
  l <-- lift (get_prop data "locations") ;;
  _ <-- if_truthy l (fun v => setLocations (Inbound v)) ;;
  h <-- lift (get_prop data "heatZones") ;;
  _ <-- if_truthy h (fun v => setHeatZones (Inbound v)) ;;
  p <-- lift (get_prop data "crowdParticles") ;;
  if_truthy p (fun v => setCrowdParticles (Inbound v)).

Definition ws_onmessage (parsed : completion value) : Handler unit :=
  try_catch_ignore (ws_onmessage_try parsed).

Definition ws_onopen : Handler unit := modify (setIsLive true).
Definition ws_onclose : Handler unit := modify (setIsLive false).
Definition ws_onerror : Handler unit := modify (setIsLive false).

(* ------------------------------------------------------------------ *)
(** ** The effect of [Simulation3D] *)

(** The state cells as [useState] initialises them. *)
Definition initial : Simulation3D :=
  {| locations := Own None; heatZones := Own None;
     crowdParticles := Own None; isLive := false;
     ws := None; timer := false; console := [] |}.

(** [if (url)] on [string | undefined]. *)
Definition url_set (url : option string) : bool :=
  match url with
  | Some s => negb (String.eqb s "")
  | None => false
  end.

(** The effect body: seed, then open a socket when a URL is configured
    ([ctor_throws] tells whether [new WebSocket(url)] throws), and start
    the interval when none is. *)
Definition mount (url : option string) (ctor_throws : bool)
  : Rand Simulation3D :=
  c <- bootstrapDefaults initial ;;
  let c1 :=
    match url with
    | Some u =>
        if url_set url then
          if ctor_throws then setIsLive false c
          else set_ws (Some {| ws_url := u; close_called := false |}) c
        else c
    | None => c
    end in
  let c2 := if negb (url_set url) then set_timer true c1 else c1 in
  ret c2.

(** The cleanup returned by the effect. *)
Definition unmount (c : Simulation3D) : Simulation3D :=
  let c1 :=
    match ws c with
    | Some w => set_ws (Some {| ws_url := ws_url w; close_called := true |}) c
    | None => c
    end in
  if timer c1 then set_timer false c1 else c1.

(** What the browser can deliver to the mounted component. *)
Inductive event :=
| ev_open
| ev_close
| ev_error
| ev_message (parsed : completion value)
| ev_interval.

(** An event reaches a callback only if the effect registered one: the
    socket handlers exist when [ws] was created, the interval callback
    when [setInterval] was called. *)
Definition enabled (e : event) (c : Simulation3D) : bool :=
  match e with
  | ev_interval => timer c
  | _ => match ws c with Some _ => true | None => false end
  end.

(** One delivered event.  [None]: no callback is registered for the
    event, or the interval met a cell outside its declared type. *)
Definition step (e : event) (c : Simulation3D) : Rand (option Simulation3D) :=
  if enabled e c then
    match e with
    | ev_open => ret (Some (snd (ws_onopen c)))
    | ev_close => ret (Some (snd (ws_onclose c)))
    | ev_error => ret (Some (snd (ws_onerror c)))
    | ev_message parsed => ret (Some (snd (ws_onmessage parsed c)))
    | ev_interval => interval_callback c
    end
  else ret None.

Fixpoint run (es : list event) (c : Simulation3D) : Rand (option Simulation3D) :=
  match es with
  | [] => ret (Some c)
  | e :: rest =>
      r <- step e c ;;
      match r with
      | Some c' => run rest c'
      | None => ret None
      end
  end.

(* ------------------------------------------------------------------ *)
(** ** The satellite ground: [SatelliteGround] *)

Local Open Scope Z_scope.

(** The covering tile of a coordinate.  [Math.pow(2, z)] is [Rpower 2 z]
    and [Math.floor] is [Zfloor]. *)
Definition lonLatToTile (lon lat z : R) : Z * Z :=
  let latRad := (lat * PI / 180)%R in
  let n := Rpower 2 z in
  let x := Zfloor ((lon + 180) / 360 * n)%R in
  let y := Zfloor ((1 - ln (tan latRad + 1 / cos latRad) / PI) / 2 * n)%R in
  (x, y).

(** The formula as the specification words it, for a zoom level that is
    a natural number, with [sec] the reciprocal of [cos]. *)
Definition sec (a : R) : R := (1 / cos a)%R.

Definition spec_tile_x (lon : R) (zoom : nat) : Z :=
  Zfloor ((lon + 180) / 360 * 2 ^ zoom)%R.

Definition spec_tile_y (lat : R) (zoom : nat) : Z :=
  let lat_rad := (lat * PI / 180)%R in
  Zfloor ((1 - ln (tan lat_rad + sec lat_rad) / PI) / 2 * 2 ^ zoom)%R.

(** [String(n)] for an integer. *)
Definition String_of (n : Z) : string :=
  NilZero.string_of_int (Z.to_int n).

Definition drop (n : nat) (s : string) : string :=
  substring n (String.length s - n) s.

(** [s.replace(pat, rep)] for a string pattern: the first occurrence. *)
Fixpoint replace (pat rep s : string) : string :=
  if String.prefix pat s then rep ++ drop (String.length pat) s
  else
    match s with
    | EmptyString => EmptyString
    | String ch s' => String ch (replace pat rep s')
    end.

Definition default_tileUrlTemplate : string :=
  "https://server.arcgisonline.com/ArcGIS/rest/services/World_Imagery/MapServer/tile/{z}/{y}/{x}".

(** [envUrl || default]. *)
Definition tileUrlTemplate (envUrl : option string) : string :=
  match envUrl with
  | Some u => if String.eqb u "" then default_tileUrlTemplate else u
  | None => default_tileUrlTemplate
  end.

Record HTMLImageElement := { src : string }.

(** The URL [fetchTile] assigns to [img.src]. *)
Definition tile_url (template : string) (zoom x y : Z) : string :=
  replace "{y}" (String_of y)
    (replace "{x}" (String_of x)
      (replace "{z}" (String_of zoom) template)).

(** How an image promise settles: [onload] resolves with the image,
    [onerror] rejects. *)
Inductive settled (A : Type) :=
| Fulfilled (a : A)
| Rejected (failed_url : string).
Arguments Fulfilled {A} a.
Arguments Rejected {A} failed_url.

(** [fetchTile(x, y)]; [net url] tells whether the image at [url] loads. *)
Definition fetchTile (template : string) (zoom : Z) (net : string -> bool)
  (x y : Z) : settled HTMLImageElement :=
  let url := tile_url template zoom x y in
  if net url then Fulfilled {| src := url |} else Rejected url.

(** The values taken by [for (let d = lo; d <= hi; d++)]. *)
Definition for_range (lo hi : Z) : list Z :=
  map (fun i => lo + Z.of_nat i) (seq 0 (Z.to_nat (hi - lo + 1))).

(** The offsets [(dx, dy)] visited by the nested loops, [dy] outermost. *)
Definition grid (tilesRadius : Z) : list (Z * Z) :=
  flat_map
    (fun dy => map (fun dx => (dx, dy)) (for_range (- tilesRadius) tilesRadius))
    (for_range (- tilesRadius) tilesRadius).

(** The tiles asked for by the first pair of loops, in push order. *)
Definition requested_tiles (cx cy tilesRadius : Z) : list (Z * Z) :=
  map (fun d => (cx + fst d, cy + snd d)) (grid tilesRadius).

(** [Promise.all]: the results in order when every promise is fulfilled,
    a rejection as soon as one is rejected. *)
Fixpoint Promise_all {A} (ps : list (settled A)) : settled (list A) :=
  match ps with
  | [] => Fulfilled []
  | Fulfilled a :: rest =>
      match Promise_all rest with
      | Fulfilled l => Fulfilled (a :: l)
      | Rejected u => Rejected u
      end
  | Rejected u :: _ => Rejected u
  end.

Inductive draw :=
| drawImage (img : HTMLImageElement) (sx sy w h : Z).

(** A [CanvasTexture]: the canvas content it was made from. *)
Record CanvasTexture := { image : list draw }.

(** What survives between runs of the effect: [textureRef.current] and
    the [map] of the mesh material. *)
Record Ground := {
  textureRef : option CanvasTexture;
  material_map : option CanvasTexture
}.

(** The second pair of loops: [images[i++]] drawn at its grid place.
    [None] when an image is missing at index [i]. *)
Fixpoint draw_tiles (images : list HTMLImageElement) (tilesRadius tileSize : Z)
  (offsets : list (Z * Z)) (i : nat) : option (list draw) :=
  match offsets with
  | [] => Some []
  | (dx, dy) :: rest =>
      match nth_error images i with
      | Some img =>
          let sx := (dx + tilesRadius) * tileSize in
          let sy := (dy + tilesRadius) * tileSize in
          match draw_tiles images tilesRadius tileSize rest (S i) with
          | Some ds => Some (drawImage img sx sy tileSize tileSize :: ds)
          | None => None
          end
      | None => None
      end
  end.

(** One run of [load]: the image URLs requested, how the promise
    returned by [load] settles, and the ground afterwards. *)
Record load_run := {
  requested : list string;
  outcome : settled unit;
  ground : Ground
}.

(** [load()].  [isCancelled] is the flag as read after the [await];
    [mesh] tells whether [meshRef.current] is set. *)
Definition load (template : string) (zoom tileSize tilesRadius cx cy : Z)
  (net : string -> bool) (isCancelled mesh : bool) (g : Ground) : load_run :=
  let tiles := requested_tiles cx cy tilesRadius in
  let urls := map (fun t => tile_url template zoom (fst t) (snd t)) tiles in
  let promises := map (fun t => fetchTile template zoom net (fst t) (snd t)) tiles in
  match Promise_all promises with
  | Rejected _ =>
      (* catch: ignore load errors *)
      {| requested := urls; outcome := Fulfilled tt; ground := g |}
  | Fulfilled images =>
      if isCancelled then
        {| requested := urls; outcome := Fulfilled tt; ground := g |}
      else
        match draw_tiles images tilesRadius tileSize (grid tilesRadius) 0 with
        | None => {| requested := urls; outcome := Fulfilled tt; ground := g |}
        | Some ds =>
            let texture := {| image := ds |} in
            {| requested := urls; outcome := Fulfilled tt;
               ground :=
                 {| textureRef := Some texture;
                    material_map :=
                      if mesh then Some texture else material_map g |} |}
        end
  end.

(** The effect of [SatelliteGround] up to the call of [load]; [ctx] tells
    whether [canvas.getContext('2d')] returned a context. *)
Definition compose (centerLat centerLon : R) (zoom tileSize tilesRadius : Z)
  (template : string) (ctx : bool) (net : string -> bool)
  (isCancelled mesh : bool) (g : Ground) : load_run :=
  let (cx, cy) := lonLatToTile centerLon centerLat (IZR zoom) in
  if ctx then load template zoom tileSize tilesRadius cx cy net isCancelled mesh g
  else {| requested := []; outcome := Fulfilled tt; ground := g |}.

(** The cleanup of the effect. *)
Definition dispose (g : Ground) : Ground :=
  {| textureRef := None; material_map := material_map g |}.

(* ------------------------------------------------------------------ *)
(** ** Predicates used by the statements *)

Local Open Scope Q_scope.

(** An intensity the fallback interval may leave behind. *)
Definition zone_in_bounds (z : HeatZoneData) : Prop :=
  0.05 <= intensity z /\ intensity z <= 1 /\ 0 < intensity z.

(** A particle inside the ground on the two perturbed axes. *)
Definition particle_in_bounds (p : ParticleData) : Prop :=
  let '(x, _, z) := position p in
  (-2 <= x /\ x <= 2) /\ (-2 <= z /\ z <= 2).

(** [new] is [old] with its intensity moved by some delta of at most
    0.05 either way and then clamped. *)
Definition zone_step (old new : HeatZoneData) : Prop :=
  exists d, -0.05 <= d /\ d <= 0.05 /\
    intensity new = Qmax 0.05 (Qmin 1 (intensity old + d)) /\
    center new = center old /\ radius new = radius old.

(** [new] is [old] with x and z each moved by some delta of at most 0.01
    either way and then clamped. *)
Definition particle_step (old new : ParticleData) : Prop :=
  let '(x, y, z) := position old in
  exists dx dz, (-0.01 <= dx /\ dx <= 0.01) /\ (-0.01 <= dz /\ dz <= 0.01) /\
    position new =
      (Qmax (-2) (Qmin 2 (x + dx)), y, Qmax (-2) (Qmin 2 (z + dz))) /\
    color new = color old /\ speed new = speed old.

(** |x| + |z| of a particle. *)
Definition manhattan (p : ParticleData) : Q :=
  let '(x, _, z) := position p in Qabs x + Qabs z.

(** The colour rule of the seed. *)
Definition seeded_color (p : ParticleData) : Prop :=
  (manhattan p < 1.5 -> color p = high_density) /\
  (~ manhattan p < 1.5 -> color p = low_density).

(** While the interval exists no socket does, the badge is not live and
    the two cells it mutates hold arrays of their declared type. *)
Definition interval_inv (c : Simulation3D) : Prop :=
  timer c = true ->
  ws c = None /\ isLive c = false /\
  (exists hz, heatZones c = Own hz) /\
  (exists ps, crowdParticles c = Own ps).

(** A sequence of draws cycling through 0, 1/4, 1/2, 3/4. *)
Definition sample_rng : Rng :=
  {| draws := fun n => Z.of_nat (n mod 4) # 4; cursor := 0 |}.

(** A ground that already shows a texture made of one earlier draw. *)
Definition sample_ground : Ground :=
  let t := {| image := [drawImage {| src := "previous" |} 0 0 256 256] |} in
  {| textureRef := Some t; material_map := Some t |}.

(** The component mounted without a feed URL, after two firings of the
    interval on the sample draws. *)
Definition sample_after : option Simulation3D * Rng :=
  let m := mount None false sample_rng in
  run [ev_interval; ev_interval] (fst m) (snd m).

(* ------------------------------------------------------------------ *)
(** ** The scene: [Scene3D], [HeatZone], [CrowdParticle] *)

Local Open Scope Q_scope.

(** The fallback sample data of [Scene3D]. *)
Definition defaultLocations : list LocationData :=
  [ {| l_position := (-1, 0, -1); label := "Ramkund"; riskLevel := high |};
    {| l_position := (1, 0, -1); label := "Triveni"; riskLevel := critical |};
    {| l_position := (0, 0, 1); label := "Kalaram"; riskLevel := medium |};
    {| l_position := (-1.5, 0, 0.5); label := "Sita Gufha"; riskLevel := low |} ].

Definition defaultHeatZones : list HeatZoneData :=
  [ {| center := (-1, 0, -1); radius := 0.3; intensity := 0.8 |};
    {| center := (1, 0, -1); radius := 0.4; intensity := 0.95 |};
    {| center := (0, 0, 1); radius := 0.25; intensity := 0.6 |};
    {| center := (-1.5, 0, 0.5); radius := 0.2; intensity := 0.3 |} ].

(** The body of the [for] loop that fills [defaultParticles]. *)
Definition defaultParticle : Rand ParticleData :=
  r1 <- Math_random ;;
  let x := (r1 - 0.5) * 4 in
  r2 <- Math_random ;;
  let z := (r2 - 0.5) * 4 in
  let y := 0.02 in
  let intensity := if Qltb (Qabs x + Qabs z) 1.5 then 0.8 else 0.3 in
  let color := if Qltb 0.6 intensity then "#ef4444" else "#10b981" in
  r3 <- Math_random ;;
  ret {| position := (x, y, z); color := color; speed := r3 * 2 + 1 |}.

(** [for (let i = 0; i < n; i++) arr.push(body())]. *)
Fixpoint for_push {A} (n : nat) (body : Rand A) (arr : list A) : Rand (list A) :=
  match n with
  | O => ret arr
  | S n' => p <- body ;; for_push n' body (arr ++ [p])%list
  end.

Definition defaultParticles : Rand (list ParticleData) :=
  for_push 200 defaultParticle [].




(** [getColor] of [HeatZone]. *)
Definition HeatZone_getColor (i : Q) : string :=
  if Qltb i 0.25 then "#10b981"
  else if Qltb i 0.5 then "#f59e0b"
  else if Qltb i 0.75 then "#f97316"
  else "#ef4444".

(** The [useFrame] callback of [CrowdParticle] on the position of its
    mesh ([None] while [meshRef.current] is unset), over the reals. *)
Definition CrowdParticle_useFrame (elapsedTime speed : R)
  (mesh : option (R * R * R)) : option (R * R * R) :=
  match mesh with
  | Some (x, y, z) =>
      Some ((x + sin (elapsedTime * speed) * 0.001)%R, y,
            (z + cos (elapsedTime * speed) * 0.001)%R)
  | None => None
  end.

(** [canvas.width] and [canvas.height] set by [SatelliteGround]. *)
Definition canvas_side (tileSize tilesRadius : Z) : Z :=
  let count := (tilesRadius * 2 + 1)%Z in
  (tileSize * count)%Z.

(** Where a draw puts its image on the canvas. *)
Definition draw_at (d : draw) : Z * Z :=
  match d with drawImage _ sx sy _ _ => (sx, sy) end.

(** A string without an opening brace. *)
Fixpoint no_brace (s : string) : bool :=
  match s with
  | EmptyString => true
  | String ch s' => negb (Ascii.eqb ch "{"%char) && no_brace s'
  end.

(** Whether a parsed update carries a truthy member [k]. *)
Definition provides (data : value) (k : string) : bool :=
  match field data k with
  | Some v => truthy v
  | None => false
  end.

(** The socket events that only report the connection state. *)
Definition is_status (e : event) : bool :=
  match e with
  | ev_open | ev_close | ev_error => true
  | _ => false
  end.

(** Fields of a zone and of a particle that the interval copies. *)
Definition zone_same (old new : HeatZoneData) : Prop :=
  center new = center old /\ radius new = radius old.

Definition particle_same (old new : ParticleData) : Prop :=
  color new = color old /\ speed new = speed old /\
  snd (fst (position new)) = snd (fst (position old)).


(** The intensity moved by at most 0.05. *)
Definition zone_near (old new : HeatZoneData) : Prop :=
  Qabs (intensity new - intensity old) <= 0.05.


(** The snapshot while only the interval drives it: the seeded
    locations, four zones and 200 particles, all within bounds. *)
Definition fallback_snapshot (c : Simulation3D) : Prop :=
  locations c = Own (Some seedLocations) /\
  isLive c = false /\
  exists hz ps,
    heatZones c = Own (Some hz) /\ crowdParticles c = Own (Some ps) /\
    Forall zone_in_bounds hz /\ Forall particle_in_bounds ps /\
    List.length hz = 4%nat /\ List.length ps = 200%nat.

(** A mounted component with a socket and nothing else. *)
Definition sample_connected : Simulation3D :=
  set_ws (Some {| ws_url := "wss://feed"; close_called := false |}) initial.


(* ------------------------------------------------------------------ *)
(** ** [SimulationControl] *)

Module SimulationControl.

(** The props: [onToggle] is required, [onStop] and [onResetSimulation]
    are optional and recorded as present or absent. *)
Record Props := {
  isRunning : bool;
  onStop : bool;
  onResetSimulation : bool
}.

(** What a handler does to the outside: the callbacks it calls and the
    toasts it shows, in order. *)
Inductive call :=
| OnToggle
| OnStop
| OnResetSimulation
| Toast (title description : string).

Record State := {
  speed : list Q;
  totalPilgrims : list Q;
  timeOfDay : list Q;
  weatherIntensity : list Q;
  isConfigOpen : bool;
  autoPauseOnEmergency : bool;
  enableSoundAlerts : bool;
  highQualityRendering : bool
}.

Definition initial : State :=
  {| speed := [1]; totalPilgrims := [50000]; timeOfDay := [14];
     weatherIntensity := [70]; isConfigOpen := false;
     autoPauseOnEmergency := true; enableSoundAlerts := false;
     highQualityRendering := true |}.

(** The four slider setters called in a row; the switches are kept. *)
Definition set_parameters (sp tp td wi : Q) (s : State) : State :=
  {| speed := [sp]; totalPilgrims := [tp]; timeOfDay := [td];
     weatherIntensity := [wi]; isConfigOpen := isConfigOpen s;
     autoPauseOnEmergency := autoPauseOnEmergency s;
     enableSoundAlerts := enableSoundAlerts s;
     highQualityRendering := highQualityRendering s |}.

(** [s.padStart(targetLength, padString)]. *)
Fixpoint fill (n : nat) (pad cur : string) : string :=
  match n with
  | O => EmptyString
  | S n' =>
      match cur with
      | String ch cur' => String ch (fill n' pad cur')
      | EmptyString =>
          match pad with
          | String ch pad' => String ch (fill n' pad pad')
          | EmptyString => EmptyString
          end
      end
  end.

Definition padStart (targetLength : nat) (padString s : string) : string :=
  (fill (targetLength - String.length s) padString padString ++ s)%string.

(** [formatTime] on a whole number of hours. *)
Definition formatTime (hour : Z) : string :=
  (padStart 2 "0" (String_of hour) ++ ":00")%string.

Definition getWeatherDescription (intensity : Q) : string :=
  if Qltb intensity 30 then "Clear"
  else if Qltb intensity 60 then "Partly Cloudy"
  else if Qltb intensity 85 then "Overcast"
  else "Heavy Rain".

Definition handleStop (p : Props) : list call :=
  ((if onStop p then [OnStop]
    else if isRunning p then [OnToggle] else [])
   ++ [Toast "Simulation Stopped" "The simulation has been halted."])%list.

Definition handleReset (p : Props) (s : State) : State * list call :=
  (set_parameters 1 50000 14 70 s,
   ((if onResetSimulation p then [OnResetSimulation] else [])
    ++ [Toast "Simulation Reset" "Parameters restored to defaults."])%list).

Inductive preset := peak | emergency | normal | festival.

Definition applyPreset (pr : preset) (p : Props) (s : State)
  : State * list call :=
  match pr with
  | peak =>
      (set_parameters 1.5 150000 18 40 s,
       [Toast "Peak Hours" "High crowd levels applied."])
  | emergency =>
      (set_parameters 2 200000 12 90 s,
       (Toast "Emergency Scenario" "Extreme conditions applied."
        :: (if autoPauseOnEmergency s && isRunning p then [OnToggle] else [])))
  | normal =>
      (set_parameters 1 50000 14 30 s,
       [Toast "Normal Day" "Typical conditions applied."])
  | festival =>
      (set_parameters 1.2 180000 10 70 s,
       [Toast "Festival Day" "Festival crowd and weather set."])
  end.

(** A slider accepts [v] when it lies between [min] and [max] on the
    grid of [step] counted from [min]. *)
Definition on_slider (min max step v : Q) : Prop :=
  min <= v /\ v <= max /\ exists k : Z, v == min + inject_Z k * step.

(** Every parameter is a one-value array its slider accepts. *)
Definition sliders_ok (s : State) : Prop :=
  (exists v, speed s = [v] /\ on_slider 0.1 5 0.1 v) /\
  (exists v, totalPilgrims s = [v] /\ on_slider 10000 200000 5000 v) /\
  (exists v, timeOfDay s = [v] /\ on_slider 0 23 1 v) /\
  (exists v, weatherIntensity s = [v] /\ on_slider 0 100 5 v).

End SimulationControl.

(* ------------------------------------------------------------------ *)
(** ** [AIAssistant] *)

Module AIAssistant.

Definition predefinedResponses : list string :=
  [ "Based on current crowd density data, I recommend taking the alternative route via Godavari Ghat which has 40% less congestion right now.";
    "The risk level at Triveni Sangam is currently HIGH. I suggest visiting between 10-11 AM or after 6 PM for safer conditions.";
    "Emergency services have been alerted. Please move to the nearest safe zone marked in green on your map. Help will arrive in 8-10 minutes.";
    "The best bathing time today is 6:30 AM when crowd density will be at its lowest. Would you like me to set a reminder?";
    "I've analyzed the crowd flow patterns. The shortest route to your destination will take approximately 25 minutes considering current conditions." ]%string.

(** [arr[i]] for a whole number [i]: [None] is [undefined]. *)
Definition index {A} (arr : list A) (i : Z) : option A :=
  if (i <? 0)%Z then None else nth_error arr (Z.to_nat i).

(** [predefinedResponses[Math.floor(r * predefinedResponses.length)]]
    for the draw [r]. *)
Definition fallback (r : Q) : option string :=
  index predefinedResponses
    (Qfloor (r * inject_Z (Z.of_nat (List.length predefinedResponses)))).

(** The content of the assistant message built in the [catch]. *)
Definition fallback_content (r : Q) : string :=
  ("Sorry, I had trouble reaching the assistant. " ++
   match fallback r with
   | Some s => s
   | None => "undefined"
   end)%string.

End AIAssistant.

(* ================================================================== *)
(** * Properties *)

Local Open Scope Q_scope.

(* ------------------------------------------------------------------ *)
(** ** The message handler *)

Lemma set_same (c : Simulation3D) :
  setCrowdParticles (crowdParticles c)
    (setHeatZones (heatZones c) (setLocations (locations c) c)) = c.
Proof. destruct c; reflexivity. Qed.

(** The handler never lets an exception escape, and what it leaves in
    the three cells is [reconcile] applied member by member. *)
Lemma ws_onmessage_parsed (data : value) (c : Simulation3D) :
  ws_onmessage (Normal data) c =
  (Normal tt,
   setCrowdParticles (reconcile (crowdParticles c) (field data "crowdParticles"))
     (setHeatZones (reconcile (heatZones c) (field data "heatZones"))
       (setLocations (reconcile (locations c) (field data "locations")) c))).
Proof.
  destruct data; cbn; try (rewrite set_same; reflexivity).
  unfold ws_onmessage, try_catch_ignore, ws_onmessage_try, hbind, lift; cbn.
  destruct (lookup "locations" props) as [l|]; cbn;
    [destruct (truthy l); cbn|];
    (destruct (lookup "heatZones" props) as [h|]; cbn;
     [destruct (truthy h); cbn|]);
    (destruct (lookup "crowdParticles" props) as [p|]; cbn;
     [destruct (truthy p); cbn|]);
    destruct c; reflexivity.
Qed.

Lemma ws_onmessage_throw (e : js_error) (c : Simulation3D) :
  ws_onmessage (Throw e) c = (Normal tt, c).
Proof. reflexivity. Qed.

Lemma lookup_remove_same (k : string) (props : list (string * value)) :
  lookup k (remove_key k props) = None.
Proof.
  induction props as [|[k' v] rest IH]; cbn; [reflexivity|].
  destruct (String.eqb k k') eqn:E; cbn; [exact IH|].
  rewrite E. exact IH.
Qed.

Lemma lookup_remove_other (k k' : string) (props : list (string * value)) :
  String.eqb k' k = false ->
  lookup k' (remove_key k props) = lookup k' props.
Proof.
  intros Hne.
  induction props as [|[k2 v] rest IH]; cbn; [reflexivity|].
  destruct (String.eqb k k2) eqn:E; cbn.
  - apply String.eqb_eq in E. subst k2. rewrite Hne. exact IH.
  - destruct (String.eqb k' k2); [reflexivity | exact IH].
Qed.

(** A falsy member in front of an object reads like the object without
    that member, for every key. *)
Lemma reconcile_falsy_absent {A} (old : cell A) (k k' : string) (v : value)
  (props : list (string * value)) :
  truthy v = false ->
  reconcile old (lookup k' ((k, v) :: props)) =
  reconcile old (lookup k' (remove_key k props)).
Proof.
  intros Hf. cbn.
  destruct (String.eqb k' k) eqn:E.
  - apply String.eqb_eq in E. subst k'.
    rewrite lookup_remove_same. cbn. rewrite Hf. reflexivity.
  - rewrite lookup_remove_other by exact E. reflexivity.
Qed.

Lemma reconcile_cases {A} (old : cell A) (p : option value) :
  reconcile old p = old \/
  exists v, reconcile old p = Inbound v /\ truthy v = true.
Proof.
  destruct p as [v|]; cbn; [|now left].
  destruct (truthy v) eqn:E; [right; now exists v | now left].
Qed.

(** C1: in the snapshot left by a parsed live-feed message, each of the
    three fields that the message omits is exactly its pre-merge value,
    and each field the message provides (an array, which is always
    truthy, or any other truthy value) replaces the stored field
    wholesale by that very value; nothing else of the component
    changes. *)
Theorem merge_frame_and_replace (data : value) (c : Simulation3D) :
  let c' := snd (ws_onmessage (Normal data) c) in
  (field data "locations" = None -> locations c' = locations c) /\
  (field data "heatZones" = None -> heatZones c' = heatZones c) /\
  (field data "crowdParticles" = None -> crowdParticles c' = crowdParticles c) /\
  (forall v, field data "locations" = Some v -> truthy v = true ->
     locations c' = Inbound v) /\
  (forall v, field data "heatZones" = Some v -> truthy v = true ->
     heatZones c' = Inbound v) /\
  (forall v, field data "crowdParticles" = Some v -> truthy v = true ->
     crowdParticles c' = Inbound v) /\
  (forall items, truthy (VArr items) = true) /\
  isLive c' = isLive c /\ ws c' = ws c /\ timer c' = timer c /\
  console c' = console c.
Proof.
  cbv zeta. rewrite ws_onmessage_parsed. cbn.
  repeat split; intros;
    try match goal with H : field _ _ = _ |- _ => rewrite H end;
    cbn [reconcile];
    try match goal with H : truthy _ = _ |- _ => rewrite H end;
    reflexivity.
Qed.

(** A message with only a heat-zone list, empty or not, replaces that
    cell alone. *)
Example merge_heat_only (c : Simulation3D) :
  snd (ws_onmessage (Normal (VObj [("heatZones", VArr [])])) c) =
  setHeatZones (Inbound (VArr [])) c.
Proof. rewrite ws_onmessage_parsed. destruct c; reflexivity. Qed.

(** Parsed values that are not objects carry no member; [null] makes the
    first property read throw, which the handler swallows. *)
Example merge_non_object (c : Simulation3D) :
  ws_onmessage (Normal (VNum 5)) c = (Normal tt, c) /\
  ws_onmessage (Normal VNull) c = (Normal tt, c) /\
  ws_onmessage_try (Normal VNull) c = (Throw TypeError, c).
Proof. rewrite !ws_onmessage_parsed. destruct c; repeat split. Qed.

(** C5: a partial update whose only member is a heatZones list with one
    zone of intensity [i] (2.0 in the scenario, or any other number) is
    stored with that intensity exactly as given, and the stored locations
    and particles are unchanged. *)
Theorem out_of_range_intensity_stored (i : Q) (c : Simulation3D) :
  let zone := VObj [("center", VArr [VNum 0; VNum 0; VNum 0]);
                    ("radius", VNum 0.1); ("intensity", VNum i)] in
  let c' := snd (ws_onmessage (Normal (VObj [("heatZones", VArr [zone])])) c) in
  heatZones c' = Inbound (VArr [zone]) /\
  field zone "intensity" = Some (VNum i) /\
  locations c' = locations c /\
  crowdParticles c' = crowdParticles c.
Proof.
  cbv zeta. rewrite ws_onmessage_parsed. cbn. repeat split.
Qed.

(** C6, counterexample: a message that fails to parse leaves the console
    empty, so it is not logged. *)
Lemma malformed_message_not_logged :
  let c := set_ws (Some {| ws_url := "wss://feed"; close_called := false |}) initial in
  let c' := snd (ws_onmessage (Throw SyntaxError) c) in
  console c' = [] /\ ~ (exists line, In line (console c')).
Proof.
  cbn. split; [reflexivity|]. intros [line []].
Qed.

(** C6, amended: a message that fails to parse is discarded without
    being logged: the handler completes normally and the whole component
    state, the stored snapshot, the console and the socket included, is
    left as it was. *)
Theorem malformed_message_discarded (e : js_error) (c : Simulation3D) :
  ws_onmessage (Throw e) c = (Normal tt, c) /\
  ws_onmessage_try (Throw e) c = (Throw e, c) /\
  console (snd (ws_onmessage (Throw e) c)) = console c /\
  ws (snd (ws_onmessage (Throw e) c)) = ws c.
Proof. repeat split. Qed.

(** C10: a member of the message that is present but falsy ([null],
    [false], [0] or the empty string) is handled exactly as if it were
    absent, and whatever the message, each stored field afterwards is
    either its previous value or a truthy inbound value, hence never
    [null] or [undefined] unless it already was. *)
Theorem falsy_member_like_absent (k : string) (v : value)
  (props : list (string * value)) (parsed : completion value)
  (c : Simulation3D) :
  truthy v = false ->
  ws_onmessage (Normal (VObj ((k, v) :: props))) c =
  ws_onmessage (Normal (VObj (remove_key k props))) c /\
  (let c' := snd (ws_onmessage parsed c) in
   (locations c' = locations c \/
    exists w, locations c' = Inbound w /\ truthy w = true) /\
   (heatZones c' = heatZones c \/
    exists w, heatZones c' = Inbound w /\ truthy w = true) /\
   (crowdParticles c' = crowdParticles c \/
    exists w, crowdParticles c' = Inbound w /\ truthy w = true) /\
   (nullish (locations c') = true -> nullish (locations c) = true) /\
   (nullish (heatZones c') = true -> nullish (heatZones c) = true) /\
   (nullish (crowdParticles c') = true -> nullish (crowdParticles c) = true)).
Proof.
  intros Hf. split.
  - rewrite !ws_onmessage_parsed. unfold field.
    rewrite !(reconcile_falsy_absent _ k _ v props Hf). reflexivity.
  - cbv zeta.
    assert (Hn : forall A (old : cell A) p,
               nullish (reconcile old p) = true -> nullish old = true).
    { intros A old p. destruct (reconcile_cases old p) as [->|[w [-> Hw]]];
        [trivial|]. destruct w; cbn in *; congruence. }
    destruct parsed as [data|e].
    + rewrite ws_onmessage_parsed. cbn.
      repeat split; try apply reconcile_cases; apply Hn.
    + rewrite ws_onmessage_throw. cbn.
      repeat split; try (now left); trivial.
Qed.

Lemma falsy_member_like_absent_witness :
  truthy VNull = false /\
  ws_onmessage
    (Normal (VObj [("heatZones", VNull); ("locations", VArr [])])) initial =
  ws_onmessage
    (Normal (VObj (remove_key "heatZones" [("locations", VArr [])]))) initial.
Proof.
  split; [reflexivity|].
  exact (proj1 (falsy_member_like_absent "heatZones" VNull
                  [("locations", VArr [])] (Normal VNull) initial eq_refl)).
Defined.

(* ------------------------------------------------------------------ *)
(** ** Seeding and the fallback interval *)

Lemma unit_interval_draws (g g' : Rng) :
  draws g' = draws g -> unit_interval g -> unit_interval g'.
Proof. intros E H n. rewrite E. apply H. Qed.

Lemma sample_rng_unit_interval : unit_interval sample_rng.
Proof.
  intros n. unfold sample_rng, draws.
  assert (H : (n mod 4 < 4)%nat) by (apply Nat.mod_upper_bound; lia).
  revert H. generalize (n mod 4)%nat. intros m H.
  unfold Qle, Qlt; cbn. lia.
Qed.

Lemma Qltb_lt (a b : Q) : Qltb a b = true <-> a < b.
Proof.
  unfold Qltb. rewrite Qlt_alt.
  destruct (a ?= b); split; congruence.
Qed.

Lemma clamp_bounds (lo hi v : Q) :
  lo <= hi -> lo <= Qmax lo (Qmin hi v) /\ Qmax lo (Qmin hi v) <= hi.
Proof.
  intros H. split.
  - apply Q.le_max_l.
  - apply Q.max_lub; [exact H | apply Q.le_min_l].
Qed.

(** [mapM] relates each element to its image and only reads the draws. *)
Lemma mapM_Forall2 {A B} (f : A -> Rand B) (P : A -> B -> Prop) :
  (forall x g, unit_interval g ->
     P x (fst (f x g)) /\ draws (snd (f x g)) = draws g) ->
  forall xs g, unit_interval g ->
    Forall2 P xs (fst (mapM f xs g)) /\ draws (snd (mapM f xs g)) = draws g.
Proof.
  intros Hf xs. induction xs as [|x rest IH]; intros g Hg; cbn.
  - split; [constructor | reflexivity].
  - unfold bind, ret.
    destruct (Hf x g Hg) as [Hx Hd].
    destruct (f x g) as [y g1]; cbn in *.
    assert (Hg1 : unit_interval g1) by (eapply unit_interval_draws; eauto).
    destruct (IH g1 Hg1) as [Hr Hd'].
    destruct (mapM f rest g1) as [ys g2]; cbn in *.
    split; [constructor; assumption | congruence].
Qed.

Lemma array_from_Forall {A} (f : Rand A) (P : A -> Prop) :
  (forall g, P (fst (f g))) ->
  forall n g, List.length (fst (array_from n f g)) = n /\
              Forall P (fst (array_from n f g)).
Proof.
  intros Hf n. induction n as [|n IH]; intros g; cbn.
  - split; [reflexivity | constructor].
  - unfold bind, ret.
    specialize (Hf g). destruct (f g) as [y g1]; cbn in *.
    specialize (IH g1). destruct (array_from n f g1) as [ys g2]; cbn in *.
    destruct IH as [Hl HP]. split; [congruence | constructor; assumption].
Qed.

Lemma arr_or_prev_Forall2 {A} (P : A -> A -> Prop) (arr : list A)
  (prev : option (list A)) :
  Forall2 P (or_empty prev) arr ->
  Forall2 P (or_empty prev) (or_empty (arr_or_prev arr prev)).
Proof.
  intros H. destruct arr as [|a arr]; [|exact H].
  change (arr_or_prev [] prev) with prev.
  inversion H as [Hp|]. constructor.
Qed.

Lemma perturbZone_step (z : HeatZoneData) (g : Rng) :
  unit_interval g ->
  zone_step z (fst (perturbZone z g)) /\
  draws (snd (perturbZone z g)) = draws g.
Proof.
  intros Hg. split; [|reflexivity].
  destruct (Hg (cursor g)) as [H0 H1].
  exists ((draws g (cursor g) - 0.5) * 0.1). cbn.
  repeat split; Lqa.lra.
Qed.

Lemma perturbParticle_step (p : ParticleData) (g : Rng) :
  unit_interval g ->
  particle_step p (fst (perturbParticle p g)) /\
  draws (snd (perturbParticle p g)) = draws g.
Proof.
  intros Hg. unfold particle_step, perturbParticle.
  destruct (position p) as [[x y] z]. cbn.
  split; [|reflexivity].
  destruct (Hg (cursor g)) as [H0 H1].
  destruct (Hg (S (cursor g))) as [H2 H3].
  exists ((draws g (cursor g) - 0.5) * 0.02),
         ((draws g (S (cursor g)) - 0.5) * 0.02).
  repeat split; Lqa.lra.
Qed.

Lemma zone_step_bounds (old new : HeatZoneData) :
  zone_step old new -> zone_in_bounds new.
Proof.
  intros [d (_ & _ & Hi & _)]. unfold zone_in_bounds. rewrite Hi.
  destruct (clamp_bounds 0.05 1 (intensity old + d)) as [Ha Hb]; [Lqa.lra|].
  repeat split; Lqa.lra.
Qed.

Lemma particle_step_bounds (old new : ParticleData) :
  particle_step old new -> particle_in_bounds new.
Proof.
  unfold particle_step, particle_in_bounds.
  destruct (position old) as [[x y] z].
  intros [dx [dz (_ & _ & Hp & _)]]. rewrite Hp.
  split; apply clamp_bounds; Lqa.lra.
Qed.

Lemma Forall2_Forall_r {A B} (P : A -> B -> Prop) (Q : B -> Prop)
  (xs : list A) (ys : list B) :
  (forall x y, P x y -> Q y) -> Forall2 P xs ys -> Forall Q ys.
Proof. intros H F. induction F; constructor; eauto. Qed.

(** One firing of the interval: what it does to each array, and that it
    only reads the draws. *)
Lemma tick_step (s : option (list HeatZoneData) * option (list ParticleData))
  (g : Rng) :
  unit_interval g ->
  Forall2 zone_step (or_empty (fst s)) (or_empty (fst (fst (tick s g)))) /\
  Forall2 particle_step (or_empty (snd s)) (or_empty (snd (fst (tick s g)))) /\
  draws (snd (tick s g)) = draws g.
Proof.
  intros Hg. destruct s as [hz ps]. unfold tick, tickHeatZones,
    tickCrowdParticles, bind, ret. cbn [fst snd].
  destruct (mapM_Forall2 perturbZone zone_step perturbZone_step
              (or_empty hz) g Hg) as [Hz Hd].
  destruct (mapM perturbZone (or_empty hz) g) as [arr g1]; cbn [fst snd] in *.
  assert (Hg1 : unit_interval g1) by (eapply unit_interval_draws; eauto).
  destruct (mapM_Forall2 perturbParticle particle_step perturbParticle_step
              (or_empty ps) g1 Hg1) as [Hp Hd'].
  destruct (mapM perturbParticle (or_empty ps) g1) as [arr' g2];
    cbn [fst snd] in *.
  repeat split.
  - now apply arr_or_prev_Forall2.
  - now apply arr_or_prev_Forall2.
  - congruence.
Qed.

Lemma tick_bounds (s : option (list HeatZoneData) * option (list ParticleData))
  (g : Rng) :
  unit_interval g ->
  Forall zone_in_bounds (or_empty (fst (fst (tick s g)))) /\
  Forall particle_in_bounds (or_empty (snd (fst (tick s g)))).
Proof.
  intros Hg. destruct (tick_step s g Hg) as (Hz & Hp & _). split.
  - eapply Forall2_Forall_r; [apply zone_step_bounds | exact Hz].
  - eapply Forall2_Forall_r; [apply particle_step_bounds | exact Hp].
Qed.

(** Bounds that hold keep holding however many more times the interval
    fires. *)
Lemma ticks_bounds (n : nat) :
  forall s g, unit_interval g ->
    Forall zone_in_bounds (or_empty (fst s)) ->
    Forall particle_in_bounds (or_empty (snd s)) ->
    Forall zone_in_bounds (or_empty (fst (fst (ticks n s g)))) /\
    Forall particle_in_bounds (or_empty (snd (fst (ticks n s g)))).
Proof.
  induction n as [|n IH]; intros s g Hg Hz Hp; cbn.
  - now split.
  - unfold bind.
    destruct (tick_bounds s g Hg) as [Hz' Hp'].
    destruct (tick_step s g Hg) as (_ & _ & Hd).
    destruct (tick s g) as [s' g']; cbn [fst snd] in *.
    apply IH; [eapply unit_interval_draws; eauto | assumption | assumption].
Qed.

(** C2: whatever the snapshot, after any positive number of successive
    firings of the fallback interval every heat-zone intensity lies in
    [0.05, 1] (so it is never 0 and never above 1) and every particle has
    x and z in [-2, 2]; one firing moves each intensity by a delta in
    [-0.05, 0.05] and each of x and z by a delta in [-0.01, 0.01] before
    clamping, and changes nothing else of a zone or particle. *)
Theorem fallback_ticks_bounded
  (s : option (list HeatZoneData) * option (list ParticleData))
  (n : nat) (g : Rng) :
  unit_interval g ->
  let s' := fst (ticks (S n) s g) in
  Forall zone_in_bounds (or_empty (fst s')) /\
  Forall particle_in_bounds (or_empty (snd s')) /\
  Forall2 zone_step (or_empty (fst s)) (or_empty (fst (fst (tick s g)))) /\
  Forall2 particle_step (or_empty (snd s)) (or_empty (snd (fst (tick s g)))).
Proof.
  intros Hg. cbv zeta.
  destruct (tick_step s g Hg) as (Hz & Hp & Hd).
  destruct (tick_bounds s g Hg) as [Bz Bp].
  cbn [ticks]. unfold bind.
  destruct (tick s g) as [s1 g1]; cbn [fst snd] in *.
  destruct (ticks_bounds n s1 g1) as [Fz Fp];
    [eapply unit_interval_draws; eauto | assumption | assumption |].
  repeat split; assumption.
Qed.

Lemma fallback_ticks_bounded_witness :
  unit_interval sample_rng /\
  Forall zone_in_bounds
    (or_empty (fst (fst (ticks 3 (Some seedHeat, None) sample_rng)))).
Proof.
  split; [exact sample_rng_unit_interval|].
  exact (proj1 (fallback_ticks_bounded (Some seedHeat, None) 2 sample_rng
                  sample_rng_unit_interval)).
Defined.

Lemma seedParticle_color (g : Rng) : seeded_color (fst (seedParticle g)).
Proof.
  unfold seeded_color, manhattan, seedParticle, bind, ret, Math_random.
  cbn [fst snd position color draws cursor].
  set (x := (draws g (cursor g) - 0.5) * 4).
  set (z := (draws g (S (cursor g)) - 0.5) * 4).
  destruct (Qltb (Qabs x + Qabs z) 1.5) eqn:E.
  - change (Qltb 0.6 0.8) with true. cbv iota.
    split; [reflexivity|]. intros H. apply Qltb_lt in E. contradiction.
  - change (Qltb 0.6 0.3) with false. cbv iota.
    split; [|reflexivity]. intros H. apply Qltb_lt in H. congruence.
Qed.

(** C4: one call of the seed gives exactly 4 locations, 4 heat zones and
    200 particles, with the status shown as simulated; a seeded particle
    with |x| + |z| below 1.5 carries the high-density colour and every
    other one the low-density colour. *)
Theorem seed_snapshot (g : Rng) :
  let c := fst (bootstrapDefaults initial g) in
  (exists ls, locations c = Own (Some ls) /\ List.length ls = 4%nat) /\
  (exists hs, heatZones c = Own (Some hs) /\ List.length hs = 4%nat) /\
  (exists ps, crowdParticles c = Own (Some ps) /\ List.length ps = 200%nat /\
              Forall seeded_color ps) /\
  isLive c = false /\ status c = "Simulated"%string.
Proof.
  cbv zeta. unfold bootstrapDefaults, bind, ret, seedParticles.
  destruct (array_from_Forall seedParticle seeded_color seedParticle_color
              200 g) as [Hl HP].
  destruct (array_from 200 seedParticle g) as [ps g']; cbn [fst snd] in *.
  repeat split.
  - exists seedLocations. split; reflexivity.
  - exists seedHeat. split; reflexivity.
  - exists ps. repeat split; assumption.
Qed.

(** The first four seeded particles on the sample draws sit at
    (-2,-1), (1,-2), (0,1) and (-1,0). *)
Example seed_colours_sample :
  map color (firstn 4 (fst (seedParticles sample_rng))) =
  [low_density; low_density; high_density; high_density].
Proof. vm_compute. reflexivity. Qed.

(** One firing on the seeded zones with the sample draws. *)
Example tick_seedHeat_sample :
  Forall2 Qeq
    (map intensity (or_empty (fst (tickHeatZones (Some seedHeat) sample_rng))))
    [0.75; 0.925; 0.6; 0.325].
Proof. repeat constructor. Qed.

(** The clamp at work at both ends, and the empty and missing arrays
    left as they are. *)
Example tick_clamps_sample :
  Forall2 Qeq
    (map intensity
       (or_empty (fst (tickHeatZones
          (Some [ {| center := (0, 0, 0); radius := 0.1; intensity := 0.06 |};
                  {| center := (0, 0, 0); radius := 0.1; intensity := 2 |} ])
          sample_rng))))
    [0.05; 1] /\
  fst (tickHeatZones (Some []) sample_rng) = Some [] /\
  fst (tickHeatZones None sample_rng) = None.
Proof. split; [repeat constructor | split; reflexivity]. Qed.

(* ------------------------------------------------------------------ *)
(** ** When the fallback interval runs *)

Lemma bootstrapDefaults_fields (c : Simulation3D) (g : Rng) :
  let c' := fst (bootstrapDefaults c g) in
  timer c' = timer c /\ ws c' = ws c /\ isLive c' = isLive c /\
  (exists hz, heatZones c' = Own hz) /\
  (exists ps, crowdParticles c' = Own ps).
Proof.
  cbv zeta. unfold bootstrapDefaults, bind, ret.
  destruct (seedParticles g) as [ps g']. cbn.
  repeat split; eexists; reflexivity.
Qed.

(** What the effect leaves behind: the interval exists exactly when no
    URL is configured, and then there is no socket. *)
Lemma mount_fields (url : option string) (ctor_throws : bool) (g : Rng) :
  let c := fst (mount url ctor_throws g) in
  timer c = negb (url_set url) /\
  (timer c = true -> ws c = None) /\
  isLive c = false /\
  (exists hz, heatZones c = Own hz) /\
  (exists ps, crowdParticles c = Own ps).
Proof.
  cbv zeta. unfold mount, bind, ret.
  destruct (bootstrapDefaults_fields initial g) as (Ht & Hw & Hl & Hz & Hp).
  destruct (bootstrapDefaults initial g) as [c g']. cbn [fst snd] in *.
  destruct url as [u|]; cbn [url_set].
  - destruct (negb (String.eqb u "")); cbn [negb];
      [destruct ctor_throws|]; cbn; repeat split; auto; try discriminate.
    rewrite Ht. discriminate.
  - cbn. repeat split; auto.
Qed.

Lemma ws_onmessage_fields (parsed : completion value) (c : Simulation3D) :
  timer (snd (ws_onmessage parsed c)) = timer c /\
  ws (snd (ws_onmessage parsed c)) = ws c.
Proof.
  destruct parsed as [data|e];
    [rewrite ws_onmessage_parsed | rewrite ws_onmessage_throw];
    split; reflexivity.
Qed.

Lemma step_fields (e : event) (c c' : Simulation3D) (g g' : Rng) :
  step e c g = (Some c', g') ->
  enabled e c = true /\ timer c' = timer c /\ ws c' = ws c.
Proof.
  unfold step. destruct (enabled e c) eqn:En; [|discriminate].
  destruct e; unfold ret; cbn [enabled] in *.
  1-3: intros H; injection H as <- _; repeat split.
  - intros H; injection H as <- _.
    destruct (ws_onmessage_fields parsed c). now repeat split.
  - unfold interval_callback.
    destruct (heatZones c) as [hz|]; [|discriminate].
    destruct (crowdParticles c) as [ps|]; [|discriminate].
    unfold bind, ret.
    destruct (tickHeatZones hz g) as [hz' g1].
    destruct (tickCrowdParticles ps g1) as [ps' g2].
    intros H; injection H as <- _. repeat split.
Qed.

Lemma step_inv (e : event) (c c' : Simulation3D) (g g' : Rng) :
  interval_inv c -> step e c g = (Some c', g') -> interval_inv c'.
Proof.
  intros Inv H. destruct (step_fields e c c' g g' H) as (En & Ht & Hw).
  intros T. rewrite Ht in T. destruct (Inv T) as (W & L & [hz Hz] & [ps Hp]).
  destruct e; cbn [enabled] in En; try (rewrite W in En; discriminate).
  unfold step in H. cbn [enabled] in H. rewrite T in H.
  unfold interval_callback in H. rewrite Hz, Hp in H.
  unfold bind, ret in H.
  destruct (tickHeatZones hz g) as [hz' g1].
  destruct (tickCrowdParticles ps g1) as [ps' g2].
  injection H as <- _. cbn.
  repeat split; try assumption; eexists; reflexivity.
Qed.

Lemma run_inv (es : list event) :
  forall c c' g g',
    interval_inv c -> run es c g = (Some c', g') ->
    interval_inv c' /\ timer c' = timer c.
Proof.
  induction es as [|e rest IH]; intros c c' g g' Inv H; cbn in H.
  - injection H as <- _. now split.
  - unfold bind in H. destruct (step e c g) as [[c1|] g1] eqn:S1.
    + destruct (step_fields _ _ _ _ _ S1) as (_ & Ht & _).
      destruct (IH c1 c' g1 g' (step_inv _ _ _ _ _ Inv S1) H) as [I T].
      split; [exact I | congruence].
    + discriminate.
Qed.

Lemma mount_ws (u : string) (g : Rng) :
  String.eqb u "" = false ->
  ws (fst (mount (Some u) false g)) =
    Some {| ws_url := u; close_called := false |}.
Proof.
  intros Hu. unfold mount, bind, ret.
  destruct (bootstrapDefaults initial g) as [c g1].
  cbn [url_set]. rewrite Hu. reflexivity.
Qed.

(** C3, counterexample: with a feed URL configured, once the socket has
    opened and closed the badge shows simulated, yet no interval exists
    and an interval event reaches no callback. *)
Lemma closed_feed_has_no_fallback :
  let m := mount (Some "wss://feed") false sample_rng in
  let r := run [ev_open; ev_close] (fst m) (snd m) in
  exists c, fst r = Some c /\ isLive c = false /\
    status c = "Simulated"%string /\ timer c = false /\
    enabled ev_interval c = false /\
    fst (step ev_interval c (snd r)) = None.
Proof.
  cbv zeta.
  destruct (mount_fields (Some "wss://feed") false sample_rng) as (T0 & _).
  pose proof (mount_ws "wss://feed" sample_rng eq_refl) as W.
  destruct (mount (Some "wss://feed") false sample_rng) as [c0 g0].
  cbn [fst snd] in *.
  change (timer c0 = false) in T0.
  exists (setIsLive false (setIsLive true c0)).
  unfold run, bind, step, ret, ws_onopen, ws_onclose, modify.
  cbn [enabled]. rewrite W. cbn [snd setIsLive ws]. rewrite W.
  cbn [fst snd]. unfold status. cbn [setIsLive isLive timer].
  rewrite T0. repeat split.
Qed.

(** C3, amended: the fallback interval is created by the effect exactly
    when no feed URL is configured, and it is neither stopped nor started
    by any later event.  Where it exists there is no socket and the
    status is never live, and every interval event runs the mutation on
    the stored arrays; where a URL is configured no interval event ever
    reaches a callback, whatever the socket does. *)
Theorem fallback_only_without_endpoint (url : option string)
  (ctor_throws : bool) (g : Rng) (es : list event)
  (c' : Simulation3D) (g' : Rng) :
  run es (fst (mount url ctor_throws g)) (snd (mount url ctor_throws g))
    = (Some c', g') ->
  timer c' = negb (url_set url) /\
  (timer c' = true -> isLive c' = false /\ ws c' = None) /\
  (url_set url = true ->
     enabled ev_interval c' = false /\ fst (step ev_interval c' g') = None) /\
  (url_set url = false ->
     exists hz ps hz' ps',
       heatZones c' = Own hz /\ crowdParticles c' = Own ps /\
       fst (step ev_interval c' g') =
         Some (setCrowdParticles (Own ps') (setHeatZones (Own hz') c')) /\
       (hz', ps') = fst (tick (hz, ps) g')).
Proof.
  intros H.
  destruct (mount_fields url ctor_throws g) as (T0 & W0 & L0 & Z0 & P0).
  assert (Inv0 : interval_inv (fst (mount url ctor_throws g))).
  { intros T. repeat split; auto. }
  destruct (run_inv es _ _ _ _ Inv0 H) as [Inv T].
  rewrite T0 in T. split; [exact T|]. split; [|split].
  - intros T'. destruct (Inv T') as (W & L & _). now split.
  - intros U. rewrite U in T. cbn in T.
    unfold step. cbn [enabled]. rewrite T. now split.
  - intros U. rewrite U in T. cbn in T.
    destruct (Inv T) as (_ & _ & [hz Hz] & [ps Hp]).
    unfold step, interval_callback, tick. cbn [enabled fst snd].
    rewrite T, Hz, Hp. unfold bind, ret.
    destruct (tickHeatZones hz g') as [hz' g1] eqn:E1.
    destruct (tickCrowdParticles ps g1) as [ps' g2] eqn:E2.
    exists hz, ps, hz', ps'. repeat split.
    rewrite E1, E2. reflexivity.
Qed.


Lemma fallback_only_without_endpoint_witness :
  let m := mount None false sample_rng in
  let c' := match fst sample_after with Some c => c | None => initial end in
  run [ev_interval; ev_interval] (fst m) (snd m) = (Some c', snd sample_after) /\
  timer c' = true.
Proof.
  cbv zeta.
  assert (H : run [ev_interval; ev_interval]
                (fst (mount None false sample_rng))
                (snd (mount None false sample_rng)) =
              (Some match fst sample_after
                    with Some c => c | None => initial end,
               snd sample_after)).
  { vm_compute. reflexivity. }
  split; [exact H|].
  exact (proj1 (fallback_only_without_endpoint None false sample_rng
                  [ev_interval; ev_interval]
                  (match fst sample_after with Some c => c | None => initial end)
                  (snd sample_after) H)).
Defined.

(* ------------------------------------------------------------------ *)
(** ** The tile grid *)

Local Open Scope Z_scope.

Lemma length_for_range (lo hi : Z) :
  List.length (for_range lo hi) = Z.to_nat (hi - lo + 1).
Proof. unfold for_range. now rewrite length_map, length_seq. Qed.

Lemma In_for_range (lo hi x : Z) :
  In x (for_range lo hi) <-> lo <= x <= hi.
Proof.
  unfold for_range. rewrite in_map_iff. split.
  - intros [i [<- Hi]]. apply in_seq in Hi. lia.
  - intros H. exists (Z.to_nat (x - lo)). split; [lia|].
    apply in_seq. lia.
Qed.

Lemma NoDup_map_inj {A B} (f : A -> B) (l : list A) :
  (forall x y, f x = f y -> x = y) -> NoDup l -> NoDup (map f l).
Proof.
  intros Inj N. induction N as [|x l Hx N IH]; cbn; constructor; [|exact IH].
  rewrite in_map_iff. intros [y [E Hy]]. apply Inj in E. now subst.
Qed.

Lemma NoDup_for_range (lo hi : Z) : NoDup (for_range lo hi).
Proof.
  unfold for_range. apply NoDup_map_inj; [intros; lia | apply seq_NoDup].
Qed.

Lemma length_rows {A} (row : list A) (f : Z -> A -> Z * Z) (ys : list Z) :
  List.length (flat_map (fun dy => map (f dy) row) ys) =
  (List.length ys * List.length row)%nat.
Proof.
  induction ys as [|y ys IH]; cbn; [reflexivity|].
  now rewrite length_app, length_map, IH.
Qed.

Lemma length_grid (r : Z) :
  0 <= r -> List.length (grid r) = Z.to_nat ((2 * r + 1) ^ 2).
Proof.
  intros Hr. unfold grid.
  rewrite (length_rows (for_range (- r) r) (fun dy dx => (dx, dy))).
  rewrite length_for_range. nia.
Qed.

Lemma In_grid (r dx dy : Z) :
  In (dx, dy) (grid r) <-> (- r <= dx <= r) /\ (- r <= dy <= r).
Proof.
  unfold grid. rewrite in_flat_map. split.
  - intros [y [Hy Hin]]. apply in_map_iff in Hin as [x [E Hx]].
    injection E as <- <-. apply In_for_range in Hx, Hy. now split.
  - intros [Hx Hy]. exists dy. split; [now apply In_for_range|].
    apply in_map_iff. exists dx. split; [reflexivity | now apply In_for_range].
Qed.

Lemma NoDup_rows (xs ys : list Z) :
  NoDup xs -> NoDup ys ->
  NoDup (flat_map (fun dy => map (fun dx => (dx, dy)) xs) ys).
Proof.
  intros Nx Ny. induction Ny as [|y ys Hy Ny IH]; cbn; [constructor|].
  apply NoDup_app.
  - apply NoDup_map_inj; [|exact Nx]. intros a b E. now injection E.
  - exact IH.
  - intros [a b] Ha Hb. apply in_map_iff in Ha as [x [E _]].
    injection E as <- <-. apply in_flat_map in Hb as [y' [Hy' Hin]].
    apply in_map_iff in Hin as [x' [E' _]]. injection E' as _ <-.
    contradiction.
Qed.

Lemma NoDup_requested_tiles (cx cy r : Z) : NoDup (requested_tiles cx cy r).
Proof.
  unfold requested_tiles. apply NoDup_map_inj.
  - intros [a b] [a' b'] E. cbn in E. injection E as E1 E2. f_equal; lia.
  - apply NoDup_rows; apply NoDup_for_range.
Qed.

Lemma In_requested_tiles (cx cy r x y : Z) :
  In (x, y) (requested_tiles cx cy r) <->
  (cx - r <= x <= cx + r) /\ (cy - r <= y <= cy + r).
Proof.
  unfold requested_tiles. rewrite in_map_iff. split.
  - intros [[dx dy] [E H]]. cbn in E. injection E as <- <-.
    apply In_grid in H. lia.
  - intros H. exists (x - cx, y - cy). split.
    + cbn. f_equal; lia.
    + apply In_grid. lia.
Qed.

Lemma load_requested (template : string) (zoom tileSize r cx cy : Z)
  (net : string -> bool) (isCancelled mesh : bool) (g : Ground) :
  requested (load template zoom tileSize r cx cy net isCancelled mesh g) =
  map (fun t => tile_url template zoom (fst t) (snd t))
      (requested_tiles cx cy r) /\
  outcome (load template zoom tileSize r cx cy net isCancelled mesh g) =
  Fulfilled tt.
Proof.
  unfold load.
  destruct (Promise_all _); [|split; reflexivity].
  destruct isCancelled; [split; reflexivity|].
  destruct (draw_tiles _ _ _ _ _); split; reflexivity.
Qed.

Lemma compose_load (centerLat centerLon : R) (zoom tileSize r : Z)
  (template : string) (net : string -> bool) (isCancelled mesh : bool)
  (g : Ground) :
  compose centerLat centerLon zoom tileSize r template true net
    isCancelled mesh g =
  load template zoom tileSize r
    (fst (lonLatToTile centerLon centerLat (IZR zoom)))
    (snd (lonLatToTile centerLon centerLat (IZR zoom)))
    net isCancelled mesh g.
Proof.
  unfold compose. destruct (lonLatToTile centerLon centerLat (IZR zoom)).
  reflexivity.
Qed.

(** C8: for every tile radius r >= 0 one run of the compositor (with a
    drawing context available) requests exactly (2r+1)^2 tiles: each tile
    of the square of half-width r centred on the tile computed for the
    centre coordinate exactly once, and no other; that is 9 tiles for
    radius 1 and 1 tile for radius 0. *)
Theorem tiles_requested (centerLat centerLon : R) (zoom tileSize r : Z)
  (template : string) (net : string -> bool) (isCancelled mesh : bool)
  (g : Ground) :
  0 <= r ->
  let c := lonLatToTile centerLon centerLat (IZR zoom) in
  let run r := compose centerLat centerLon zoom tileSize r template true net
                 isCancelled mesh g in
  List.length (requested (run r)) = Z.to_nat ((2 * r + 1) ^ 2) /\
  requested (run r) =
    map (fun t => tile_url template zoom (fst t) (snd t))
        (requested_tiles (fst c) (snd c) r) /\
  NoDup (requested_tiles (fst c) (snd c) r) /\
  (forall x y, In (x, y) (requested_tiles (fst c) (snd c) r) <->
     (fst c - r <= x <= fst c + r) /\ (snd c - r <= y <= snd c + r)) /\
  List.length (requested (run 1)) = 9%nat /\
  List.length (requested (run 0)) = 1%nat.
Proof.
  intros Hr. cbv beta zeta. rewrite !compose_load.
  rewrite !(proj1 (load_requested _ _ _ _ _ _ _ _ _ _)).
  rewrite !length_map. unfold requested_tiles at 1. rewrite length_map.
  split; [now apply length_grid|].
  split; [reflexivity|].
  split; [apply NoDup_requested_tiles|].
  split; [intros x y; apply In_requested_tiles|].
  split; reflexivity.
Qed.

Lemma tiles_requested_witness :
  0 <= 1 /\
  List.length
    (requested (compose 19.9975 73.7898 16 256 1 default_tileUrlTemplate true
                  (fun _ => true) false true sample_ground))
  = Z.to_nat ((2 * 1 + 1) ^ 2).
Proof.
  split; [lia|].
  exact (proj1 (tiles_requested 19.9975 73.7898 16 256 1
                  default_tileUrlTemplate (fun _ => true) false true
                  sample_ground ltac:(lia))).
Defined.

(* ------------------------------------------------------------------ *)
(** ** Loading and compositing the tiles *)

Lemma Promise_all_rejected {A} (ps : list (settled A)) (u : string) :
  In (Rejected u) ps -> exists u', Promise_all ps = Rejected u'.
Proof.
  induction ps as [|p ps IH]; intros H; [destruct H|].
  destruct p as [a|w]; cbn.
  - destruct H as [H|H]; [discriminate|].
    destruct (IH H) as [u' ->]. now exists u'.
  - now exists w.
Qed.

Lemma Promise_all_fetched (template : string) (zoom : Z)
  (net : string -> bool) (tiles : list (Z * Z)) :
  (forall t, In t tiles -> net (tile_url template zoom (fst t) (snd t)) = true) ->
  Promise_all (map (fun t => fetchTile template zoom net (fst t) (snd t)) tiles) =
  Fulfilled (map (fun t => {| src := tile_url template zoom (fst t) (snd t) |}) tiles).
Proof.
  induction tiles as [|t tiles IH]; intros H; cbn; [reflexivity|].
  unfold fetchTile at 1. rewrite (H t (or_introl eq_refl)).
  rewrite IH; [reflexivity|]. intros t' Ht'. apply H. now right.
Qed.

(** With one image per grid place the second pair of loops draws them
    all. *)
Lemma draw_tiles_all (r tileSize : Z) (offsets : list (Z * Z)) :
  forall (pre images : list HTMLImageElement),
    List.length images = List.length offsets ->
    exists ds,
      draw_tiles (pre ++ images)%list r tileSize offsets (List.length pre) = Some ds /\
      List.length ds = List.length offsets.
Proof.
  induction offsets as [|[dx dy] rest IH]; intros pre images Hl; cbn.
  - now exists [].
  - destruct images as [|img images]; [discriminate|].
    rewrite nth_error_app2 by lia. rewrite Nat.sub_diag. cbn [nth_error].
    destruct (IH (pre ++ [img])%list images) as [ds [Hd Hn]];
      [cbn in Hl; lia|].
    rewrite <- app_assoc, length_app in Hd. cbn in Hd.
    rewrite Nat.add_1_r in Hd. rewrite Hd.
    eexists. split; [reflexivity|]. cbn. now rewrite Hn.
Qed.

(** When every tile loads and the effect was not cancelled, the canvas
    receives one draw per tile and becomes the texture of the mesh. *)
Lemma load_success (template : string) (zoom tileSize r cx cy : Z)
  (net : string -> bool) (g : Ground) :
  0 <= r ->
  (forall t, In t (requested_tiles cx cy r) ->
     net (tile_url template zoom (fst t) (snd t)) = true) ->
  exists ds,
    ground (load template zoom tileSize r cx cy net false true g) =
      {| textureRef := Some {| image := ds |};
         material_map := Some {| image := ds |} |} /\
    List.length ds = Z.to_nat ((2 * r + 1) ^ 2).
Proof.
  intros Hr Hnet. unfold load.
  rewrite (Promise_all_fetched _ _ _ _ Hnet).
  destruct (draw_tiles_all r tileSize (grid r) []
              (map (fun t => {| src := tile_url template zoom (fst t) (snd t) |})
                   (requested_tiles cx cy r))) as [ds [Hd Hn]].
  { unfold requested_tiles. now rewrite !length_map. }
  cbn [app List.length] in Hd. rewrite Hd.
  exists ds. split; [reflexivity|]. now rewrite Hn, length_grid.
Qed.

(** C7, counterexample: with every tile request failing, the promise
    returned by [load] is still fulfilled; no error reaches the caller. *)
Lemma failed_tiles_do_not_reject :
  let run := load default_tileUrlTemplate 16 256 1 46201 29051
               (fun _ => false) false true sample_ground in
  outcome run = Fulfilled tt /\ (forall u, outcome run <> Rejected u).
Proof.
  cbv zeta.
  rewrite (proj2 (load_requested _ _ _ _ _ _ _ _ _ _)).
  split; [reflexivity | discriminate].
Qed.

(** C7, amended: [load] creates the request of every tile of the grid
    before it composites anything; if any of these requests fails,
    nothing is drawn or applied and the ground keeps the texture it had,
    and the failure is swallowed: [load] completes normally and no error
    is raised to the caller. *)
Theorem tile_failure_swallowed (template : string)
  (zoom tileSize r cx cy : Z) (net : string -> bool)
  (isCancelled mesh : bool) (g : Ground) (t : Z * Z) :
  In t (requested_tiles cx cy r) ->
  net (tile_url template zoom (fst t) (snd t)) = false ->
  let run := load template zoom tileSize r cx cy net isCancelled mesh g in
  requested run =
    map (fun t => tile_url template zoom (fst t) (snd t))
        (requested_tiles cx cy r) /\
  ground run = g /\
  outcome run = Fulfilled tt.
Proof.
  intros Hin Hnet. cbv zeta.
  destruct (load_requested template zoom tileSize r cx cy net isCancelled mesh g)
    as [Hr Ho].
  split; [exact Hr|]. split; [|exact Ho].
  unfold load.
  destruct (Promise_all_rejected
              (map (fun t => fetchTile template zoom net (fst t) (snd t))
                   (requested_tiles cx cy r))
              (tile_url template zoom (fst t) (snd t))) as [u' ->];
    [|reflexivity].
  apply in_map_iff. exists t. split; [|exact Hin].
  unfold fetchTile. now rewrite Hnet.
Qed.

Lemma tile_failure_swallowed_witness :
  In (46201, 29051) (requested_tiles 46201 29051 1) /\
  (fun u : string => negb (String.eqb u
     "https://server.arcgisonline.com/ArcGIS/rest/services/World_Imagery/MapServer/tile/16/29051/46201"))
    (tile_url default_tileUrlTemplate 16 46201 29051) = false /\
  ground (load default_tileUrlTemplate 16 256 1 46201 29051
            (fun u => negb (String.eqb u
     "https://server.arcgisonline.com/ArcGIS/rest/services/World_Imagery/MapServer/tile/16/29051/46201"))
            false true sample_ground) = sample_ground.
Proof.
  assert (Hin : In (46201, 29051) (requested_tiles 46201 29051 1))
    by (vm_compute; tauto).
  assert (Hnet : (fun u : string => negb (String.eqb u
     "https://server.arcgisonline.com/ArcGIS/rest/services/World_Imagery/MapServer/tile/16/29051/46201"))
    (tile_url default_tileUrlTemplate 16 (fst (46201, 29051)) (snd (46201, 29051)))
      = false) by (vm_compute; reflexivity).
  split; [exact Hin|]. split; [exact Hnet|].
  exact (proj1 (proj2 (tile_failure_swallowed default_tileUrlTemplate
                         16 256 1 46201 29051 _ false true sample_ground
                         (46201, 29051) Hin Hnet))).
Defined.

(* ------------------------------------------------------------------ *)
(** ** The tile of a coordinate *)

Local Open Scope R_scope.

(** C9: for a zoom level that is a natural number the conversion computes
    x = floor((lon+180)/360 * 2^zoom) and
    y = floor((1 - ln(tan(lat_rad) + sec(lat_rad))/pi)/2 * 2^zoom), and
    for longitude 0, latitude 0 and zoom 1 it yields the tile (1, 1). *)
Theorem lonLatToTile_formula (lon lat : R) (zoom : nat) :
  lonLatToTile lon lat (INR zoom) = (spec_tile_x lon zoom, spec_tile_y lat zoom) /\
  lonLatToTile 0 0 1 = (1%Z, 1%Z).
Proof.
  split.
  - unfold lonLatToTile, spec_tile_x, spec_tile_y, sec.
    rewrite Rpower_pow by lra. reflexivity.
  - unfold lonLatToTile. rewrite Rpower_1 by lra.
    replace (0 * PI / 180) with 0 by lra.
    rewrite tan_0, cos_0.
    replace (0 + 1 / 1) with 1 by lra. rewrite ln_1.
    f_equal; apply Zfloor_eq.
    + lra.
    + unfold Rdiv. rewrite Rmult_0_l. lra.
Qed.

(* ================================================================== *)
(** * Further properties *)

Local Open Scope Q_scope.

(* ------------------------------------------------------------------ *)
(** ** The scene and the seed *)

Lemma for_push_array_from {A} (body : Rand A) (n : nat) :
  forall (arr : list A) (g : Rng),
    for_push n body arr g =
    ((arr ++ fst (array_from n body g))%list, snd (array_from n body g)).
Proof.
  induction n as [|n IH]; intros arr g; cbn.
  - unfold ret. cbn. now rewrite app_nil_r.
  - unfold bind, ret. destruct (body g) as [p g1].
    rewrite IH. destruct (array_from n body g1) as [l g2]. cbn.
    now rewrite <- app_assoc.
Qed.

(** X1: the data [Scene3D] falls back to is the data [Simulation3D]
    seeds: the same four locations, the same four heat zones, and from
    the same random draws the same 200 particles, although one is built
    by a loop that pushes and the other by [Array.from] and [map]. *)
Theorem scene_defaults_are_seed (g : Rng) :
  defaultLocations = seedLocations /\
  defaultHeatZones = seedHeat /\
  defaultParticles g = seedParticles g.
Proof.
  split; [reflexivity|]. split; [reflexivity|].
  unfold defaultParticles, seedParticles.
  rewrite for_push_array_from.
  change defaultParticle with seedParticle.
  destruct (array_from 200 seedParticle g) as [l g']. reflexivity.
Qed.

Lemma bootstrapDefaults_cells (c : Simulation3D) (g : Rng) :
  bootstrapDefaults c g =
  (setCrowdParticles (Own (Some (fst (seedParticles g))))
     (setHeatZones (Own (Some seedHeat))
        (setLocations (Own (Some seedLocations)) c)),
   snd (seedParticles g)).
Proof.
  unfold bootstrapDefaults, bind, ret.
  destruct (seedParticles g) as [ps g']. reflexivity.
Qed.

(** The effect changes no cell after seeding them. *)
Lemma mount_cells (url : option string) (ctor_throws : bool) (g : Rng) :
  locations (fst (mount url ctor_throws g)) = Own (Some seedLocations) /\
  heatZones (fst (mount url ctor_throws g)) = Own (Some seedHeat) /\
  crowdParticles (fst (mount url ctor_throws g)) =
    Own (Some (fst (seedParticles g))) /\
  snd (mount url ctor_throws g) = snd (seedParticles g).
Proof.
  unfold mount, bind, ret. rewrite bootstrapDefaults_cells.
  destruct (seedParticles g) as [ps0 g0].
  destruct url as [u|]; cbn [url_set];
    [destruct (negb (String.eqb u "")); [destruct ctor_throws|]|];
    cbn; repeat split.
Qed.


Lemma arr_or_prev_some {A} (arr l : list A) :
  exists l', arr_or_prev arr (Some l) = Some l'.
Proof. destruct arr; cbn; eexists; reflexivity. Qed.

Lemma interval_callback_tick (c : Simulation3D)
  (hz : option (list HeatZoneData)) (ps : option (list ParticleData))
  (g : Rng) :
  heatZones c = Own hz -> crowdParticles c = Own ps ->
  interval_callback c g =
  (Some (setCrowdParticles (Own (snd (fst (tick (hz, ps) g))))
           (setHeatZones (Own (fst (fst (tick (hz, ps) g)))) c)),
   snd (tick (hz, ps) g)).
Proof.
  intros Hz Hp. unfold interval_callback, tick. rewrite Hz, Hp.
  unfold bind, ret. cbn [fst snd].
  destruct (tickHeatZones hz g) as [hz' g1].
  destruct (tickCrowdParticles ps g1) as [ps' g2]. reflexivity.
Qed.

Lemma tick_some (l : list HeatZoneData) (q : list ParticleData) (g : Rng) :
  exists l' q', fst (tick (Some l, Some q) g) = (Some l', Some q').
Proof.
  unfold tick, tickHeatZones, tickCrowdParticles, bind, ret. cbn [fst snd].
  destruct (mapM perturbZone (or_empty (Some l)) g) as [arr g1].
  destruct (mapM perturbParticle (or_empty (Some q)) g1) as [arr' g2].
  destruct (arr_or_prev_some arr l) as [l' ->].
  destruct (arr_or_prev_some arr' q) as [q' ->].
  now exists l', q'.
Qed.





(* ------------------------------------------------------------------ *)
(** ** What the fallback interval keeps *)

Lemma mapM_rel {A B} (f : A -> Rand B) (P : A -> B -> Prop) :
  (forall x g, P x (fst (f x g))) ->
  forall xs g, Forall2 P xs (fst (mapM f xs g)).
Proof.
  intros Hf xs. induction xs as [|x rest IH]; intros g; cbn.
  - constructor.
  - unfold bind, ret. specialize (Hf x g).
    destruct (f x g) as [y g1]. specialize (IH g1).
    destruct (mapM f rest g1) as [ys g2]. cbn in *. now constructor.
Qed.

Lemma Forall2_refl_list {A} (P : A -> A -> Prop) (l : list A) :
  (forall x, P x x) -> Forall2 P l l.
Proof. intros H. induction l; constructor; auto. Qed.

Lemma Forall2_trans_list {A} (P : A -> A -> Prop) :
  (forall x y z, P x y -> P y z -> P x z) ->
  forall l1 l2 l3, Forall2 P l1 l2 -> Forall2 P l2 l3 -> Forall2 P l1 l3.
Proof.
  intros T l1 l2 l3 H. revert l3.
  induction H as [|x y l1 l2 Hxy H IH]; intros l3 H3; inversion H3; subst;
    constructor; eauto.
Qed.

Lemma perturbZone_same (z : HeatZoneData) (g : Rng) :
  zone_same z (fst (perturbZone z g)).
Proof. split; reflexivity. Qed.

Lemma perturbParticle_same (p : ParticleData) (g : Rng) :
  particle_same p (fst (perturbParticle p g)).
Proof.
  unfold particle_same, perturbParticle.
  destruct (position p) as [[x y] z]. repeat split.
Qed.

Lemma tick_same (s : option (list HeatZoneData) * option (list ParticleData))
  (g : Rng) :
  Forall2 zone_same (or_empty (fst s)) (or_empty (fst (fst (tick s g)))) /\
  Forall2 particle_same (or_empty (snd s)) (or_empty (snd (fst (tick s g)))).
Proof.
  destruct s as [hz ps].
  unfold tick, tickHeatZones, tickCrowdParticles, bind, ret. cbn [fst snd].
  pose proof (mapM_rel perturbZone zone_same perturbZone_same (or_empty hz) g)
    as Hz.
  destruct (mapM perturbZone (or_empty hz) g) as [arr g1]. cbn [fst snd] in *.
  pose proof (mapM_rel perturbParticle particle_same perturbParticle_same
                (or_empty ps) g1) as Hp.
  destruct (mapM perturbParticle (or_empty ps) g1) as [arr' g2].
  cbn [fst snd] in *.
  split; now apply arr_or_prev_Forall2.
Qed.

(** X3: however often the interval fires and whatever the draws, it
    never adds or removes a zone or a particle, never changes the centre
    or radius of a zone, and never changes the colour, the speed or the
    height of a particle: a particle keeps the colour it was seeded with
    even when it has moved. *)
Theorem ticks_keep_identity (n : nat)
  (s : option (list HeatZoneData) * option (list ParticleData)) (g : Rng) :
  let s' := fst (ticks n s g) in
  Forall2 zone_same (or_empty (fst s)) (or_empty (fst s')) /\
  Forall2 particle_same (or_empty (snd s)) (or_empty (snd s')) /\
  List.length (or_empty (fst s')) = List.length (or_empty (fst s)) /\
  List.length (or_empty (snd s')) = List.length (or_empty (snd s)).
Proof.
  cbv zeta.
  assert (H : Forall2 zone_same (or_empty (fst s))
                (or_empty (fst (fst (ticks n s g)))) /\
              Forall2 particle_same (or_empty (snd s))
                (or_empty (snd (fst (ticks n s g))))).
  { revert s g. induction n as [|n IH]; intros s g; cbn.
    - split; apply Forall2_refl_list; intros x; repeat split.
    - unfold bind. destruct (tick_same s g) as [Hz Hp].
      destruct (tick s g) as [s1 g1]. cbn [fst snd] in *.
      destruct (IH s1 g1) as [Hz' Hp']. split.
      + eapply Forall2_trans_list; [|exact Hz|exact Hz'].
        intros x y z [A B] [C D]. split; congruence.
      + eapply Forall2_trans_list; [|exact Hp|exact Hp'].
        intros x y z (A & B & C) (D & E & F). repeat split; congruence. }
  destruct H as [Hz Hp]. repeat split; try assumption;
    symmetry; eapply Forall2_length; eassumption.
Qed.

Lemma Qltb_ge (a b : Q) : Qltb a b = false -> b <= a.
Proof.
  intros H. destruct (Qlt_le_dec a b) as [L|L]; [|exact L].
  apply Qltb_lt in L. congruence.
Qed.

(** Clamping a value that was inside the range moves it no further than
    the perturbation did. *)
Lemma clamp_near (lo hi v d e : Q) :
  lo <= v -> v <= hi -> - e <= d -> d <= e ->
  Qabs (Qmax lo (Qmin hi (v + d)) - v) <= e.
Proof.
  intros H1 H2 H3 H4. apply Qabs_Qle_condition.
  destruct (Q.max_spec lo (Qmin hi (v + d))) as [[Ha Hb]|[Ha Hb]];
    destruct (Q.min_spec hi (v + d)) as [[Hc Hd]|[Hc Hd]];
    rewrite Hb; try rewrite Hd in *; split; Lqa.lra.
Qed.

Lemma zone_step_near (old new : HeatZoneData) :
  zone_in_bounds old -> zone_step old new -> zone_near old new.
Proof.
  intros (B1 & B2 & _) [d (D1 & D2 & Hi & _)]. unfold zone_near. rewrite Hi.
  apply clamp_near; assumption.
Qed.




Lemma seedHeat_in_bounds : Forall zone_in_bounds seedHeat.
Proof.
  unfold seedHeat, zone_in_bounds.
  repeat constructor; cbn [intensity]; Lqa.lra.
Qed.


(** X5: a zone within bounds changes colour by at most one band per
    firing of the interval: green may turn amber, amber green or orange,
    orange amber or red, and red orange, but no band is skipped. *)
Theorem heat_colour_moves_one_band (old new : HeatZoneData) :
  zone_in_bounds old -> zone_step old new ->
  let c := HeatZone_getColor (intensity old) in
  let c' := HeatZone_getColor (intensity new) in
  (c = "#10b981"%string -> c' = "#10b981"%string \/ c' = "#f59e0b"%string) /\
  (c = "#f59e0b"%string ->
     c' = "#10b981"%string \/ c' = "#f59e0b"%string \/ c' = "#f97316"%string) /\
  (c = "#f97316"%string ->
     c' = "#f59e0b"%string \/ c' = "#f97316"%string \/ c' = "#ef4444"%string) /\
  (c = "#ef4444"%string -> c' = "#f97316"%string \/ c' = "#ef4444"%string).
Proof.
  intros B S. pose proof (zone_step_near old new B S) as N.
  unfold zone_near in N. apply Qabs_Qle_condition in N. destruct N as [N1 N2].
  cbv zeta. unfold HeatZone_getColor.
  destruct (Qltb (intensity old) 0.25) eqn:O1;
    [apply Qltb_lt in O1 | apply Qltb_ge in O1];
  (destruct (Qltb (intensity old) 0.5) eqn:O2;
    [apply Qltb_lt in O2 | apply Qltb_ge in O2]);
  (destruct (Qltb (intensity old) 0.75) eqn:O3;
    [apply Qltb_lt in O3 | apply Qltb_ge in O3]);
  (destruct (Qltb (intensity new) 0.25) eqn:E1;
    [apply Qltb_lt in E1 | apply Qltb_ge in E1]);
  (destruct (Qltb (intensity new) 0.5) eqn:E2;
    [apply Qltb_lt in E2 | apply Qltb_ge in E2]);
  (destruct (Qltb (intensity new) 0.75) eqn:E3;
    [apply Qltb_lt in E3 | apply Qltb_ge in E3]);
  try (exfalso; Lqa.lra);
  repeat split; intros; try discriminate; tauto.
Qed.

Lemma heat_colour_moves_one_band_witness :
  let old := {| center := (0, 0, 1); radius := 0.25; intensity := 0.6 |} in
  let new := fst (perturbZone old sample_rng) in
  zone_in_bounds old /\ zone_step old new /\
  (HeatZone_getColor (intensity old) = "#f97316"%string ->
   HeatZone_getColor (intensity new) = "#f59e0b"%string \/
   HeatZone_getColor (intensity new) = "#f97316"%string \/
   HeatZone_getColor (intensity new) = "#ef4444"%string).
Proof.
  cbv zeta.
  assert (B : zone_in_bounds
                {| center := (0, 0, 1); radius := 0.25; intensity := 0.6 |})
    by (unfold zone_in_bounds; cbn [intensity]; repeat split; Lqa.lra).
  pose proof (proj1 (perturbZone_step
                {| center := (0, 0, 1); radius := 0.25; intensity := 0.6 |}
                sample_rng sample_rng_unit_interval)) as S.
  split; [exact B|]. split; [exact S|].
  exact (proj1 (proj2 (proj2 (heat_colour_moves_one_band _ _ B S)))).
Defined.

Lemma array_from_Forall_rng {A} (f : Rand A) (P : A -> Prop) :
  (forall g, unit_interval g -> P (fst (f g)) /\ draws (snd (f g)) = draws g) ->
  forall n g, unit_interval g ->
    Forall P (fst (array_from n f g)) /\
    draws (snd (array_from n f g)) = draws g.
Proof.
  intros Hf n. induction n as [|n IH]; intros g Hg; cbn.
  - split; [constructor | reflexivity].
  - unfold bind, ret. destruct (Hf g Hg) as [Hy Hd].
    destruct (f g) as [y g1]. cbn [fst snd] in *.
    assert (Hg1 : unit_interval g1) by (eapply unit_interval_draws; eauto).
    destruct (IH g1 Hg1) as [Hr Hd'].
    destruct (array_from n f g1) as [ys g2]. cbn [fst snd] in *.
    split; [constructor; assumption | congruence].
Qed.

Lemma seedParticle_in_bounds (g : Rng) :
  unit_interval g ->
  particle_in_bounds (fst (seedParticle g)) /\
  draws (snd (seedParticle g)) = draws g.
Proof.
  intros Hg. split; [|reflexivity].
  destruct (Hg (cursor g)) as [A1 A2]. destruct (Hg (S (cursor g))) as [B1 B2].
  unfold particle_in_bounds, seedParticle, bind, ret, Math_random.
  cbn [fst snd position draws cursor]. repeat split; Lqa.lra.
Qed.

Lemma step_fallback_snapshot (e : event) (c c' : Simulation3D) (g g' : Rng) :
  ws c = None -> unit_interval g -> fallback_snapshot c ->
  step e c g = (Some c', g') ->
  ws c' = None /\ unit_interval g' /\ fallback_snapshot c'.
Proof.
  intros W Hg (L & V & hz & ps & Ez & Ep & Bz & Bp & Nz & Np) H.
  unfold step in H.
  destruct e; cbn [enabled] in H; try (rewrite W in H; discriminate).
  destruct (timer c); [|discriminate].
  rewrite (interval_callback_tick c _ _ g Ez Ep) in H.
  destruct (tick_step (Some hz, Some ps) g Hg) as (Sz & Sp & Hd).
  destruct (tick_some hz ps g) as [hz' [ps' E]].
  rewrite E in H, Sz, Sp. cbn [fst snd or_empty] in *.
  injection H as <- <-. cbn.
  split; [exact W|]. split; [eapply unit_interval_draws; eauto|].
  split; [exact L|]. split; [exact V|].
  exists hz', ps'. repeat split.
  - eapply Forall2_Forall_r; [apply zone_step_bounds | exact Sz].
  - eapply Forall2_Forall_r; [apply particle_step_bounds | exact Sp].
  - rewrite <- (Forall2_length Sz). exact Nz.
  - rewrite <- (Forall2_length Sp). exact Np.
Qed.

Lemma run_fallback_snapshot (es : list event) :
  forall c c' g g',
    ws c = None -> unit_interval g -> fallback_snapshot c ->
    run es c g = (Some c', g') -> fallback_snapshot c'.
Proof.
  induction es as [|e rest IH]; intros c c' g g' W Hg F H; cbn in H.
  - injection H as <- _. exact F.
  - unfold bind in H. destruct (step e c g) as [[c1|] g1] eqn:S1;
      [|discriminate].
    destruct (step_fallback_snapshot _ _ _ _ _ W Hg F S1) as (W1 & Hg1 & F1).
    exact (IH _ _ _ _ W1 Hg1 F1 H).
Qed.

(** X6: when no feed URL is configured, at every moment after mounting
    the snapshot consists of the four seeded locations, four heat zones
    with intensity in [0.05, 1] and 200 particles with x and z in
    [-2, 2], and the status is never live: the bounds hold from the seed
    on, not only after the first firing of the interval. *)
Theorem fallback_mode_snapshot (url : option string) (ctor_throws : bool)
  (g : Rng) (es : list event) (c' : Simulation3D) (g' : Rng) :
  url_set url = false -> unit_interval g ->
  run es (fst (mount url ctor_throws g)) (snd (mount url ctor_throws g))
    = (Some c', g') ->
  fallback_snapshot c'.
Proof.
  intros U Hg H.
  destruct (mount_fields url ctor_throws g) as (T0 & W0 & L0 & _).
  destruct (mount_cells url ctor_throws g) as (El & Eh & Ep & Er).
  rewrite U in T0. change (negb false) with true in T0.
  destruct (array_from_Forall_rng seedParticle particle_in_bounds
              seedParticle_in_bounds 200 g Hg
            : Forall particle_in_bounds (fst (seedParticles g)) /\
              draws (snd (seedParticles g)) = draws g) as [Bp Hd].
  destruct (array_from_Forall seedParticle (fun _ => True) (fun _ => I) 200 g
            : List.length (fst (seedParticles g)) = 200%nat /\ _) as [Np _].
  eapply run_fallback_snapshot; [| | |exact H].
  - exact (W0 T0).
  - rewrite Er. eapply unit_interval_draws; eauto.
  - split; [exact El|]. split; [exact L0|].
    exists seedHeat, (fst (seedParticles g)).
    split; [exact Eh|]. split; [exact Ep|].
    split; [apply seedHeat_in_bounds|]. split; [exact Bp|].
    split; [reflexivity | exact Np].
Qed.

Lemma fallback_mode_snapshot_witness :
  let m := mount None false sample_rng in
  let c' := match fst sample_after with Some c => c | None => initial end in
  url_set None = false /\ unit_interval sample_rng /\
  run [ev_interval; ev_interval] (fst m) (snd m) = (Some c', snd sample_after) /\
  fallback_snapshot c'.
Proof.
  cbv zeta.
  assert (H : run [ev_interval; ev_interval]
                (fst (mount None false sample_rng))
                (snd (mount None false sample_rng)) =
              (Some match fst sample_after
                    with Some c => c | None => initial end,
               snd sample_after)).
  { vm_compute. reflexivity. }
  split; [reflexivity|]. split; [exact sample_rng_unit_interval|].
  split; [exact H|].
  exact (fallback_mode_snapshot None false sample_rng
           [ev_interval; ev_interval]
           (match fst sample_after with Some c => c | None => initial end)
           (snd sample_after) eq_refl sample_rng_unit_interval H).
Defined.

(* ------------------------------------------------------------------ *)
(** ** Status events and messages *)

Lemma step_status (e : event) (c c' : Simulation3D) (g g' : Rng) :
  is_status e = true -> step e c g = (Some c', g') ->
  c' = setIsLive (match e with ev_open => true | _ => false end) c /\ g' = g.
Proof.
  intros S H. unfold step in H. destruct (enabled e c); [|discriminate].
  destruct e; try discriminate; unfold ret in H; injection H as <- <-;
    split; reflexivity.
Qed.

Lemma run_status (es : list event) :
  forall c c' g g',
    forallb is_status es = true -> run es c g = (Some c', g') ->
    locations c' = locations c /\ heatZones c' = heatZones c /\
    crowdParticles c' = crowdParticles c /\ ws c' = ws c /\
    timer c' = timer c /\ g' = g /\
    isLive c' =
      fold_left (fun _ e => match e with ev_open => true | _ => false end)
                es (isLive c).
Proof.
  induction es as [|e rest IH]; intros c c' g g' S H; cbn in H, S.
  - injection H as <- <-. repeat split.
  - apply andb_prop in S as [Se Sr]. unfold bind in H.
    destruct (step e c g) as [[c1|] g1] eqn:S1; [|discriminate].
    destruct (step_status _ _ _ _ _ Se S1) as [-> ->].
    destruct (IH _ _ _ _ Sr H) as (A & B & C & D & E & F & G).
    cbn [fold_left]. cbn in *. repeat split; assumption.
Qed.

(** X7: socket status events (open, close, error), in any number and
    order, never touch the stored locations, heat zones or particles and
    consume no random draw; what is shown is decided by the last of them
    alone: live after an open, simulated after a close or an error.  In
    particular a connection that opens and closes at once leaves the
    snapshot as it was. *)
Theorem status_events_keep_snapshot (es : list event) (e : event)
  (c c' : Simulation3D) (g g' : Rng) :
  forallb is_status (es ++ [e]) = true ->
  run (es ++ [e]) c g = (Some c', g') ->
  locations c' = locations c /\ heatZones c' = heatZones c /\
  crowdParticles c' = crowdParticles c /\ g' = g /\
  isLive c' = (match e with ev_open => true | _ => false end) /\
  status c' = (match e with ev_open => "Real-time" | _ => "Simulated" end)%string.
Proof.
  intros S H.
  destruct (run_status _ _ _ _ _ S H) as (A & B & C & _ & _ & F & G).
  rewrite fold_left_app in G. cbn in G.
  repeat split; try assumption.
  unfold status. rewrite G. destruct e; reflexivity.
Qed.

Lemma status_events_keep_snapshot_witness :
  forallb is_status ([ev_open] ++ [ev_close]) = true /\
  run ([ev_open] ++ [ev_close]) sample_connected sample_rng =
    (Some (setIsLive false (setIsLive true sample_connected)), sample_rng) /\
  status (setIsLive false (setIsLive true sample_connected)) = "Simulated"%string.
Proof.
  assert (H : run ([ev_open] ++ [ev_close]) sample_connected sample_rng =
              (Some (setIsLive false (setIsLive true sample_connected)),
               sample_rng)) by reflexivity.
  split; [reflexivity|]. split; [exact H|].
  exact (proj2 (proj2 (proj2 (proj2 (proj2
           (status_events_keep_snapshot [ev_open] ev_close sample_connected
              (setIsLive false (setIsLive true sample_connected))
              sample_rng sample_rng eq_refl H)))))).
Defined.

Lemma reconcile_idem {A} (old : cell A) (p : option value) :
  reconcile (reconcile old p) p = reconcile old p.
Proof.
  destruct p as [v|]; cbn; [|reflexivity].
  destruct (truthy v) eqn:E; cbn; rewrite ?E; reflexivity.
Qed.

Lemma reconcile_comm {A} (old : cell A) (p q : option value) :
  match p with Some v => truthy v | None => false end &&
  match q with Some v => truthy v | None => false end = false ->
  reconcile (reconcile old p) q = reconcile (reconcile old q) p.
Proof.
  destruct p as [v|], q as [w|]; cbn; try reflexivity.
  destruct (truthy v), (truthy w); cbn; intros H;
    try discriminate; reflexivity.
Qed.

(** X8: delivering the same parsed message a second time changes
    nothing: the handler is idempotent. *)
Theorem message_redelivery_idempotent (parsed : completion value)
  (c : Simulation3D) :
  ws_onmessage parsed (snd (ws_onmessage parsed c)) = ws_onmessage parsed c.
Proof.
  destruct parsed as [data|e]; [|reflexivity].
  rewrite !ws_onmessage_parsed. cbn.
  now rewrite !reconcile_idem.
Qed.

(** X9: two messages that provide no field in common (for each of the
    three keys at most one of them has a truthy member) can be applied
    in either order with the same result. *)
Theorem disjoint_messages_commute (d1 d2 : value) (c : Simulation3D) :
  (forall k, provides d1 k && provides d2 k = false) ->
  snd (ws_onmessage (Normal d2) (snd (ws_onmessage (Normal d1) c))) =
  snd (ws_onmessage (Normal d1) (snd (ws_onmessage (Normal d2) c))).
Proof.
  intros H. rewrite !ws_onmessage_parsed. cbn.
  rewrite (reconcile_comm (locations c) _ _ (H "locations"%string)).
  rewrite (reconcile_comm (heatZones c) _ _ (H "heatZones"%string)).
  rewrite (reconcile_comm (crowdParticles c) _ _ (H "crowdParticles"%string)).
  reflexivity.
Qed.

Lemma disjoint_messages_commute_witness :
  let d1 := VObj [("heatZones"%string, VArr []); ("locations"%string, VNull)] in
  let d2 := VObj [("locations"%string, VArr [VNum 1])] in
  (forall k, provides d1 k && provides d2 k = false) /\
  snd (ws_onmessage (Normal d2) (snd (ws_onmessage (Normal d1) initial))) =
  snd (ws_onmessage (Normal d1) (snd (ws_onmessage (Normal d2) initial))).
Proof.
  cbv zeta.
  assert (H : forall k,
             provides (VObj [("heatZones"%string, VArr []);
                             ("locations"%string, VNull)]) k &&
             provides (VObj [("locations"%string, VArr [VNum 1])]) k = false).
  { intros k. unfold provides, field. cbn [lookup].
    destruct (String.eqb k "heatZones") eqn:E1.
    - apply String.eqb_eq in E1. subst k. reflexivity.
    - destruct (String.eqb k "locations"); reflexivity. }
  split; [exact H|].
  exact (disjoint_messages_commute _ _ initial H).
Defined.

(* ------------------------------------------------------------------ *)
(** ** Compositing and tile URLs *)

Local Open Scope Z_scope.

(** With the image of every grid place at hand, the second pair of loops
    draws the image of each place at that place. *)
Lemma draw_tiles_map (r tileSize : Z) (f : Z * Z -> HTMLImageElement)
  (offsets : list (Z * Z)) :
  forall pre : list HTMLImageElement,
    draw_tiles (pre ++ map f offsets)%list r tileSize offsets (List.length pre) =
    Some (map (fun d => drawImage (f d) ((fst d + r) * tileSize)
                          ((snd d + r) * tileSize) tileSize tileSize)
              offsets).
Proof.
  induction offsets as [|[dx dy] rest IH]; intros pre; cbn [draw_tiles map].
  - reflexivity.
  - rewrite nth_error_app2 by lia. rewrite Nat.sub_diag. cbn [nth_error].
    specialize (IH (pre ++ [f (dx, dy)])%list).
    rewrite <- app_assoc, length_app in IH. cbn [app List.length] in IH.
    rewrite Nat.add_1_r in IH. rewrite IH. reflexivity.
Qed.

Lemma NoDup_grid (r : Z) : NoDup (grid r).
Proof. unfold grid. apply NoDup_rows; apply NoDup_for_range. Qed.

(** X10: when every tile loads and the effect was not cancelled, the
    texture is made of exactly one draw per grid place, in row-major
    order, and the image drawn at place (dx, dy) is the one requested for
    tile (cx+dx, cy+dy); for a positive tile size every draw lies inside
    the canvas and no two draws share a position, so the tiles cover the
    canvas without overlap.  The texture is kept in [textureRef] and
    becomes the map of the mesh when the mesh exists. *)
Theorem load_composites_grid (template : string)
  (zoom tileSize r cx cy : Z) (net : string -> bool) (mesh : bool)
  (g : Ground) :
  0 <= r -> 0 < tileSize ->
  (forall t, In t (requested_tiles cx cy r) ->
     net (tile_url template zoom (fst t) (snd t)) = true) ->
  let ds :=
    map (fun d =>
           drawImage {| src := tile_url template zoom (cx + fst d) (cy + snd d) |}
             ((fst d + r) * tileSize) ((snd d + r) * tileSize)
             tileSize tileSize)
        (grid r) in
  ground (load template zoom tileSize r cx cy net false mesh g) =
    {| textureRef := Some {| image := ds |};
       material_map := if mesh then Some {| image := ds |} else material_map g |} /\
  List.length ds = Z.to_nat ((2 * r + 1) ^ 2) /\
  (forall img sx sy w h, In (drawImage img sx sy w h) ds ->
     0 <= sx /\ sx + w <= canvas_side tileSize r /\
     0 <= sy /\ sy + h <= canvas_side tileSize r) /\
  NoDup (map draw_at ds).
Proof.
  intros Hr Ht Hnet. cbv zeta. split; [|split; [|split]].
  - unfold load. rewrite (Promise_all_fetched _ _ _ _ Hnet).
    unfold requested_tiles. rewrite map_map.
    pose proof (draw_tiles_map r tileSize
                  (fun d => {| src := tile_url template zoom
                                        (fst (cx + fst d, cy + snd d))
                                        (snd (cx + fst d, cy + snd d)) |})
                  (grid r) []) as D.
    cbn [app List.length fst snd] in D. cbn [fst snd]. rewrite D.
    reflexivity.
  - rewrite length_map. now apply length_grid.
  - intros img sx sy w h Hin. apply in_map_iff in Hin as [[dx dy] [E Hg]].
    injection E as _ <- <- <- <-. apply In_grid in Hg. cbn [fst snd].
    unfold canvas_side. nia.
  - rewrite map_map. cbn [draw_at]. apply NoDup_map_inj; [|apply NoDup_grid].
    intros [a b] [a' b'] E. cbn [fst snd] in E. injection E as E1 E2.
    f_equal; nia.
Qed.

Lemma load_composites_grid_witness :
  0 <= 1 /\ 0 < 256 /\
  (forall t, In t (requested_tiles 46201 29051 1) ->
     (fun _ : string => true)
       (tile_url default_tileUrlTemplate 16 (fst t) (snd t)) = true) /\
  NoDup (map draw_at
    (map (fun d =>
            drawImage
              {| src := tile_url default_tileUrlTemplate 16
                          (46201 + fst d) (29051 + snd d) |}
              ((fst d + 1) * 256) ((snd d + 1) * 256) 256 256)
         (grid 1))).
Proof.
  split; [lia|]. split; [lia|]. split; [reflexivity|].
  exact (proj2 (proj2 (proj2
           (load_composites_grid default_tileUrlTemplate 16 256 1 46201 29051
              (fun _ => true) true sample_ground
              ltac:(lia) ltac:(lia) (fun _ _ => eq_refl))))).
Defined.

(** X11: a run of [load] that finds the effect cancelled when the images
    arrive leaves the ground exactly as it was, whether or not the tiles
    loaded, so a superseded composite is never applied; and without a
    drawing context nothing is requested or changed at all. *)
Theorem stale_load_discarded (centerLat centerLon : R) (template : string)
  (zoom tileSize r cx cy : Z) (net : string -> bool) (mesh cancelled : bool)
  (g : Ground) :
  ground (load template zoom tileSize r cx cy net true mesh g) = g /\
  requested (compose centerLat centerLon zoom tileSize r template false net
               cancelled mesh g) = [] /\
  ground (compose centerLat centerLon zoom tileSize r template false net
            cancelled mesh g) = g.
Proof.
  split; [|split].
  - unfold load. destruct (Promise_all _); reflexivity.
  - unfold compose. destruct (lonLatToTile _ _ _). reflexivity.
  - unfold compose. destruct (lonLatToTile _ _ _). reflexivity.
Qed.

Local Open Scope string_scope.

Lemma no_brace_app (s t : string) :
  no_brace (s ++ t) = no_brace s && no_brace t.
Proof.
  induction s as [|ch s IH]; cbn; [reflexivity|].
  rewrite IH. now rewrite andb_assoc.
Qed.

Lemma no_brace_string_of_uint (d : Decimal.uint) :
  no_brace (NilEmpty.string_of_uint d) = true.
Proof. induction d; cbn; auto. Qed.

(** Decimal digits and the minus sign are no braces. *)
Lemma no_brace_String_of (n : Z) : no_brace (String_of n) = true.
Proof.
  unfold String_of, NilZero.string_of_int.
  destruct (Z.to_int n) as [d|d]; unfold NilZero.string_of_uint;
    destruct d; cbn [no_brace]; try reflexivity;
    try (cbn; apply no_brace_string_of_uint).
Qed.

Lemma substring_all (s : string) : substring 0 (String.length s) s = s.
Proof. induction s as [|ch s IH]; cbn; [reflexivity | now rewrite IH]. Qed.

(** A search for a placeholder passes over text without braces. *)
Lemma replace_skip (p rep s t : string) :
  no_brace s = true ->
  replace (String "{" p) rep (s ++ t) = s ++ replace (String "{" p) rep t.
Proof.
  intros H. induction s as [|ch s IH]; [reflexivity|].
  cbn [no_brace] in H. apply andb_prop in H as [Hc Hs].
  cbn [append]. cbn [replace String.prefix].
  destruct (ascii_dec "{" ch) as [E|E].
  - subst ch. discriminate.
  - now rewrite IH.
Qed.

Lemma replace_hit_z (rep t : string) :
  replace "{z}" rep ("{z}" ++ t) = rep ++ t.
Proof.
  cbn [append replace String.prefix]. cbn [ascii_dec ascii_rec ascii_rect].
  unfold replace. destruct t; cbn; rewrite ?substring_all; reflexivity.
Qed.

Lemma replace_hit_x (rep t : string) :
  replace "{x}" rep ("{x}" ++ t) = rep ++ t.
Proof.
  cbn [append replace String.prefix]. cbn [ascii_dec ascii_rec ascii_rect].
  unfold replace. destruct t; cbn; rewrite ?substring_all; reflexivity.
Qed.

Lemma replace_hit_y (rep t : string) :
  replace "{y}" rep ("{y}" ++ t) = rep ++ t.
Proof.
  cbn [append replace String.prefix]. cbn [ascii_dec ascii_rec ascii_rect].
  unfold replace. destruct t; cbn; rewrite ?substring_all; reflexivity.
Qed.

(** Looking for one placeholder, the search steps over the other. *)
Lemma replace_x_over_y (rep t : string) :
  replace "{x}" rep ("{y}" ++ t) = "{y}" ++ replace "{x}" rep t.
Proof.
  change ("{y}" ++ t) with (String "{" ("y}" ++ t)).
  cbn [replace String.prefix]. cbn [ascii_dec ascii_rec ascii_rect].
  cbn -[replace append].
  now rewrite (replace_skip "x}" rep "y}" t eq_refl).
Qed.

Lemma replace_y_over_x (rep t : string) :
  replace "{y}" rep ("{x}" ++ t) = "{x}" ++ replace "{y}" rep t.
Proof.
  change ("{x}" ++ t) with (String "{" ("x}" ++ t)).
  cbn [replace String.prefix]. cbn [ascii_dec ascii_rec ascii_rect].
  cbn -[replace append].
  now rewrite (replace_skip "y}" rep "x}" t eq_refl).
Qed.

(** X12: in a template whose text around the placeholders holds no
    opening brace, with the placeholders in the order z, y, x (as in the
    default template) or z, x, y, the three replacements put the zoom,
    the column and the row each in its own place for every tile address,
    negative ones included: a number substituted earlier is never
    mistaken for a placeholder.  For the default template this gives
    .../tile/zoom/y/x. *)
Theorem tile_url_substitutes (a b c d : string) (zoom x y : Z) :
  no_brace a = true -> no_brace b = true -> no_brace c = true ->
  tile_url (a ++ "{z}" ++ b ++ "{y}" ++ c ++ "{x}" ++ d) zoom x y =
    a ++ String_of zoom ++ b ++ String_of y ++ c ++ String_of x ++ d /\
  tile_url (a ++ "{z}" ++ b ++ "{x}" ++ c ++ "{y}" ++ d) zoom x y =
    a ++ String_of zoom ++ b ++ String_of x ++ c ++ String_of y ++ d /\
  tile_url default_tileUrlTemplate zoom x y =
    "https://server.arcgisonline.com/ArcGIS/rest/services/World_Imagery/MapServer/tile/"
    ++ String_of zoom ++ "/" ++ String_of y ++ "/" ++ String_of x.
Proof.
  intros Ha Hb Hc.
  assert (G1 : forall a b c d, no_brace a = true -> no_brace b = true ->
             no_brace c = true ->
             tile_url (a ++ "{z}" ++ b ++ "{y}" ++ c ++ "{x}" ++ d) zoom x y =
             a ++ String_of zoom ++ b ++ String_of y ++ c ++ String_of x ++ d).
  { clear. intros a b c d Ha Hb Hc. unfold tile_url.
    rewrite (replace_skip "z}" _ a _ Ha), replace_hit_z.
    rewrite (replace_skip "x}" _ a _ Ha),
            (replace_skip "x}" _ _ _ (no_brace_String_of zoom)),
            (replace_skip "x}" _ b _ Hb),
            replace_x_over_y,
            (replace_skip "x}" _ c _ Hc), replace_hit_x.
    rewrite (replace_skip "y}" _ a _ Ha),
            (replace_skip "y}" _ _ _ (no_brace_String_of zoom)),
            (replace_skip "y}" _ b _ Hb), replace_hit_y.
    reflexivity. }
  split; [now apply G1|]. split.
  - unfold tile_url.
    rewrite (replace_skip "z}" _ a _ Ha), replace_hit_z.
    rewrite (replace_skip "x}" _ a _ Ha),
            (replace_skip "x}" _ _ _ (no_brace_String_of zoom)),
            (replace_skip "x}" _ b _ Hb), replace_hit_x.
    rewrite (replace_skip "y}" _ a _ Ha),
            (replace_skip "y}" _ _ _ (no_brace_String_of zoom)),
            (replace_skip "y}" _ b _ Hb),
            (replace_skip "y}" _ _ _ (no_brace_String_of x)),
            (replace_skip "y}" _ c _ Hc), replace_hit_y.
    reflexivity.
  - change default_tileUrlTemplate with
      ("https://server.arcgisonline.com/ArcGIS/rest/services/World_Imagery/MapServer/tile/"
       ++ "{z}" ++ "/" ++ "{y}" ++ "/" ++ "{x}" ++ "").
    rewrite G1 by reflexivity.
    assert (E : forall s, s ++ "" = s)
      by (induction s as [|ch s IH]; cbn; [reflexivity | now rewrite IH]).
    now rewrite E.
Qed.

Lemma tile_url_substitutes_witness :
  no_brace "https://tiles.example/" = true /\ no_brace "/" = true /\
  tile_url ("https://tiles.example/" ++ "{z}" ++ "/" ++ "{x}" ++ "/" ++ "{y}" ++ ".png")
    3 (-1) 5 =
  "https://tiles.example/" ++ String_of 3 ++ "/" ++ String_of (-1) ++ "/"
    ++ String_of 5 ++ ".png".
Proof.
  split; [reflexivity|]. split; [reflexivity|].
  exact (proj1 (proj2 (tile_url_substitutes "https://tiles.example/" "/" "/"
                         ".png" 3 (-1) 5 eq_refl eq_refl eq_refl))).
Defined.

(* ------------------------------------------------------------------ *)
(** ** The animation of a particle *)

Local Open Scope R_scope.

(** X13: each frame moves the mesh of a particle by exactly 0.001 in
    the ground plane (x and z change by the sine and cosine of the same
    angle, scaled), so by at most 0.001 along either axis, whatever the
    clock and the speed; the height is untouched, and nothing happens
    while the mesh is unset. *)
Theorem particle_frame_step (elapsedTime speed x y z : R) :
  CrowdParticle_useFrame elapsedTime speed None = None /\
  exists dx dz,
    CrowdParticle_useFrame elapsedTime speed (Some (x, y, z)) =
      Some (x + dx, y, z + dz) /\
    dx * dx + dz * dz = 0.001 * 0.001 /\
    -0.001 <= dx <= 0.001 /\ -0.001 <= dz <= 0.001.
Proof.
  split; [reflexivity|].
  exists (sin (elapsedTime * speed) * 0.001),
         (cos (elapsedTime * speed) * 0.001).
  split; [reflexivity|].
  pose proof (sin2_cos2 (elapsedTime * speed)) as H. unfold Rsqr in H.
  pose proof (SIN_bound (elapsedTime * speed)) as Hs.
  pose proof (COS_bound (elapsedTime * speed)) as Hc.
  split; [|split; lra].
  replace (sin (elapsedTime * speed) * 0.001 * (sin (elapsedTime * speed) * 0.001)
           + cos (elapsedTime * speed) * 0.001 * (cos (elapsedTime * speed) * 0.001))
    with ((sin (elapsedTime * speed) * sin (elapsedTime * speed)
           + cos (elapsedTime * speed) * cos (elapsedTime * speed))
          * (0.001 * 0.001)) by ring.
  rewrite H. ring.
Qed.

(* ------------------------------------------------------------------ *)
(** ** The control panel and the assistant *)

Local Open Scope Z_scope.

Lemma formatTime_checked :
  forallb (fun h =>
    Nat.eqb (String.length (SimulationControl.formatTime h)) 5 &&
    String.eqb (SimulationControl.formatTime h)
      ((if (h <? 10)%Z then "0" else "") ++ String_of h ++ ":00")%string &&
    forallb (fun h' =>
      implb (String.eqb (SimulationControl.formatTime h)
                        (SimulationControl.formatTime h'))
            (h =? h')) (for_range 0 23))
    (for_range 0 23) = true.
Proof. vm_compute. reflexivity. Qed.

(** X14: for every hour the slider can give (0 to 23) the time shown is
    the two-digit hour, zero-padded below 10, followed by ":00": always
    five characters, and different hours are shown differently. *)
Theorem formatTime_two_digits (h : Z) :
  0 <= h <= 23 ->
  String.length (SimulationControl.formatTime h) = 5%nat /\
  SimulationControl.formatTime h =
    ((if (h <? 10)%Z then "0" else "") ++ String_of h ++ ":00")%string /\
  (forall h', 0 <= h' <= 23 ->
     SimulationControl.formatTime h = SimulationControl.formatTime h' ->
     h = h').
Proof.
  intros Hh. pose proof formatTime_checked as C.
  rewrite forallb_forall in C.
  specialize (C h (proj2 (In_for_range 0 23 h) Hh)).
  apply andb_prop in C as [C C3]. apply andb_prop in C as [C1 C2].
  split; [now apply Nat.eqb_eq|]. split; [now apply String.eqb_eq|].
  intros h' Hh' E. rewrite forallb_forall in C3.
  specialize (C3 h' (proj2 (In_for_range 0 23 h') Hh')).
  rewrite E, String.eqb_refl in C3. cbn in C3. now apply Z.eqb_eq.
Qed.

Lemma formatTime_two_digits_witness :
  0 <= 7 <= 23 /\ SimulationControl.formatTime 7 = "07:00"%string.
Proof.
  split; [lia|].
  exact (proj1 (proj2 (formatTime_two_digits 7 ltac:(lia)))).
Defined.

(** X15: the Stop button and the presets never start a stopped
    simulation: with [isRunning] false no handler calls [onToggle].  Of
    the presets only the emergency one ever calls it, and only when
    auto-pause is switched on. *)
Theorem controls_never_start (p : SimulationControl.Props)
  (s : SimulationControl.State) (pr : SimulationControl.preset) :
  (SimulationControl.isRunning p = false ->
     ~ In SimulationControl.OnToggle (SimulationControl.handleStop p) /\
     ~ In SimulationControl.OnToggle (snd (SimulationControl.applyPreset pr p s)) /\
     ~ In SimulationControl.OnToggle (snd (SimulationControl.handleReset p s))) /\
  (In SimulationControl.OnToggle (snd (SimulationControl.applyPreset pr p s)) ->
     pr = SimulationControl.emergency /\
     SimulationControl.autoPauseOnEmergency s = true /\
     SimulationControl.isRunning p = true) /\
  (SimulationControl.onStop p = true ->
     ~ In SimulationControl.OnToggle (SimulationControl.handleStop p)).
Proof.
  assert (T : forall l : list SimulationControl.call,
             forallb (fun c => match c with
                               | SimulationControl.OnToggle => false
                               | _ => true end) l = true ->
             ~ In SimulationControl.OnToggle l).
  { intros l Hl Hin. rewrite forallb_forall in Hl.
    specialize (Hl _ Hin). discriminate. }
  split; [|split].
  - intros R. unfold SimulationControl.handleStop, SimulationControl.handleReset.
    rewrite R. repeat split; apply T.
    + destruct (SimulationControl.onStop p); reflexivity.
    + destruct pr; cbn; rewrite ?R, ?andb_false_r; reflexivity.
    + destruct (SimulationControl.onResetSimulation p); reflexivity.
  - destruct pr; cbn; intros H;
      try (destruct H as [H|H]; [discriminate|contradiction]).
    destruct H as [H|H]; [discriminate|].
    destruct (SimulationControl.autoPauseOnEmergency s),
             (SimulationControl.isRunning p); cbn in H;
      try contradiction; auto.
  - intros O. unfold SimulationControl.handleStop. rewrite O.
    apply T. reflexivity.
Qed.

Local Open Scope Q_scope.

Ltac slider :=
  match goal with
  | |- SimulationControl.on_slider ?mn ?mx ?st ?v =>
      split; [Lqa.lra | split; [Lqa.lra |
        exists (Qfloor ((v - mn) / st)); vm_compute; reflexivity]]
  end.

(** X16: the parameters set by any of the four presets, by Reset, and at
    the start are values their sliders can show: each is a one-value
    array within the slider's minimum and maximum and on its step grid.
    Reset restores the starting parameters whatever they were before. *)
Theorem presets_fit_sliders (pr : SimulationControl.preset)
  (p : SimulationControl.Props) (s : SimulationControl.State) :
  SimulationControl.sliders_ok (fst (SimulationControl.applyPreset pr p s)) /\
  SimulationControl.sliders_ok (fst (SimulationControl.handleReset p s)) /\
  SimulationControl.sliders_ok SimulationControl.initial /\
  SimulationControl.speed (fst (SimulationControl.handleReset p s)) =
    SimulationControl.speed SimulationControl.initial /\
  SimulationControl.totalPilgrims (fst (SimulationControl.handleReset p s)) =
    SimulationControl.totalPilgrims SimulationControl.initial /\
  SimulationControl.timeOfDay (fst (SimulationControl.handleReset p s)) =
    SimulationControl.timeOfDay SimulationControl.initial /\
  SimulationControl.weatherIntensity (fst (SimulationControl.handleReset p s)) =
    SimulationControl.weatherIntensity SimulationControl.initial.
Proof.
  split; [|split; [|split; [|repeat split]]].
  - destruct pr; unfold SimulationControl.sliders_ok; cbn;
      (split; [|split; [|split]]); eexists; (split; [reflexivity|]); slider.
  - unfold SimulationControl.sliders_ok; cbn;
      (split; [|split; [|split]]); eexists; (split; [reflexivity|]); slider.
  - unfold SimulationControl.sliders_ok; cbn;
      (split; [|split; [|split]]); eexists; (split; [reflexivity|]); slider.
Qed.

(** X17: when the assistant cannot be reached, the reply picked for a
    draw in [0, 1) is always one of the five prepared responses: the
    index never falls outside the list, so the message never reads
    "undefined". *)
Theorem assistant_fallback_defined (r : Q) :
  0 <= r -> r < 1 ->
  exists reply,
    In reply AIAssistant.predefinedResponses /\
    AIAssistant.fallback r = Some reply /\
    AIAssistant.fallback_content r =
      ("Sorry, I had trouble reaching the assistant. " ++ reply)%string.
Proof.
  intros H0 H1. unfold AIAssistant.fallback_content, AIAssistant.fallback.
  change (inject_Z (Z.of_nat (List.length AIAssistant.predefinedResponses)))
    with (inject_Z 5).
  set (i := Qfloor (r * inject_Z 5)).
  assert (Hi : (0 <= i < 5)%Z).
  { split.
    - change 0%Z with (Qfloor (inject_Z 0)). apply Qfloor_resp_le.
      unfold inject_Z. Lqa.lra.
    - pose proof (Qfloor_le (r * inject_Z 5)) as L. fold i in L.
      assert (L' : inject_Z i < inject_Z 5) by (unfold inject_Z in *; Lqa.lra).
      rewrite <- Zlt_Qlt in L'. exact L'. }
  clearbody i. unfold AIAssistant.index.
  destruct (Z.ltb_spec i 0) as [N|_]; [lia|].
  assert (C : (i = 0 \/ i = 1 \/ i = 2 \/ i = 3 \/ i = 4)%Z) by lia.
  destruct C as [->|[->|[->|[->| ->]]]]; cbn;
    eexists; (split; [|split; reflexivity]); cbn; tauto.
Qed.

Lemma assistant_fallback_defined_witness :
  0 <= 0.99 /\ 0.99 < 1 /\
  exists reply,
    In reply AIAssistant.predefinedResponses /\
    AIAssistant.fallback 0.99 = Some reply /\
    AIAssistant.fallback_content 0.99 =
      ("Sorry, I had trouble reaching the assistant. " ++ reply)%string.
Proof.
  split; [Lqa.lra|]. split; [Lqa.lra|].
  exact (assistant_fallback_defined 0.99 ltac:(Lqa.lra) ltac:(Lqa.lra)).
Defined.
